(** * Nexus load balancer: routing and health subsystem

    A shallow embedding of the Go sources
      - internal/backend/backend.go   (Backend, passiveHealthCheckTransport, NewBackend)
      - internal/pool/pool.go         (ServerPool, NextIndex, GetNextPeer, ...)
      - internal/health/checker.go    (HealthChecker.checkHealth, isBackendAlive)
      - cmd/nexus/main.go             (start-up loop and the request handler)
    as functions in a state-and-abort monad over an explicit world: the heap of
    Backend objects (pointers are heap addresses, so aliasing is kept), the
    server pool, and a trace of the observable effects.  The model is
    sequential: mutexes and atomics are the plain reads and writes they protect. *)

From Stdlib Require Import ZArith Lia Ascii.
From stdpp Require Import base option list strings gmap.

(** ** Go integers *)

(** [uint64(z)]: reduction to 64 unsigned bits. *)
Definition uint64 (z : Z) : Z := (z mod 2 ^ 64)%Z.

(** [int(z)] on a 64-bit platform: two's complement wrap-around. *)
Definition int (z : Z) : Z := ((z + 2 ^ 63) mod 2 ^ 64 - 2 ^ 63)%Z.

(** ** Ways a goroutine stops abnormally *)
Inductive abort : Type :=
| NilDereference          (* invalid memory address or nil pointer dereference *)
| IndexOutOfRange         (* slice index out of range *)
| DivideByZero            (* integer divide by zero *)
| Fatal (msg : string).   (* log.Fatalf: the process exits *)

Inductive result (A : Type) : Type :=
| Ok (a : A)
| Abort (e : abort).
Arguments Ok {A} a.
Arguments Abort {A} e.

(** ** Data of the standard library, as far as the program observes it *)

(** A parsed [*url.URL]: the two fields the program reads and the results of
    the two methods it calls on it. *)
Record url_URL : Type := {
  Scheme : string;
  Host : string;
  url_Port : string;      (* u.Port() *)
  url_String : string     (* u.String() *)
}.

Record Request : Type := {
  Method : string;
  Path : string           (* r.URL.Path *)
}.

Record Response : Type := {
  StatusCode : Z;
  Header : gmap string (list string);
  Body : string
}.

(** What has been written to an [http.ResponseWriter]. *)
Record ResponseWriter : Type := {
  wHeader : gmap string (list string);
  wStatus : option Z;
  wBody : string
}.

Definition newResponseWriter : ResponseWriter :=
  {| wHeader := ∅; wStatus := None; wBody := "" |}.

(** [w.Header().Set(k, v)] *)
Definition Header_Set (w : ResponseWriter) (k v : string) : ResponseWriter :=
  {| wHeader := <[k := [v]]> (wHeader w); wStatus := wStatus w; wBody := wBody w |}.

(** [w.WriteHeader(code)]: only the first call counts. *)
Definition WriteHeader (w : ResponseWriter) (code : Z) : ResponseWriter :=
  {| wHeader := wHeader w;
     wStatus := match wStatus w with Some c => Some c | None => Some code end;
     wBody := wBody w |}.

(** [w.Write(data)]: an implicit [WriteHeader(200)] when none was sent. *)
Definition rw_Write (w : ResponseWriter) (data : string) : ResponseWriter :=
  {| wHeader := wHeader w;
     wStatus := match wStatus w with Some c => Some c | None => Some 200%Z end;
     wBody := wBody w +:+ data |}.

Definition StatusBadGateway : Z := 502.
Definition StatusServiceUnavailable : Z := 503.

Definition newline : string := String (Ascii.ascii_of_nat 10) EmptyString.

(** [http.Error(w, error, code)] *)
Definition http_Error (w : ResponseWriter) (error : string) (code : Z) : ResponseWriter :=
  let w := Header_Set w "Content-Type" "text/plain; charset=utf-8" in
  let w := Header_Set w "X-Content-Type-Options" "nosniff" in
  let w := WriteHeader w code in
  rw_Write w (error +:+ newline).

(** [copyHeader(dst, src)] of net/http/httputil: every value of [src] is
    added to [dst] under its key. *)
Definition copyHeader (dst src : gmap string (list string)) : gmap string (list string) :=
  union_with (λ d s, Some (d ++ s)) dst src.

(** [hopHeaders] of net/http/httputil: the hop-by-hop headers a proxy does
    not pass on. *)
Definition hopHeaders : list string :=
  ["Connection"; "Proxy-Connection"; "Keep-Alive"; "Proxy-Authenticate";
   "Proxy-Authorization"; "Te"; "Trailer"; "Transfer-Encoding"; "Upgrade"].

(** [removeHopByHopHeaders(h)] of net/http/httputil: the headers named in
    the values of [Connection] are deleted, then those of [hopHeaders].
    [names] reads the header names out of the values of [Connection]
    (splitting at commas, trimming, and the canonical spelling [Del] uses). *)
Definition removeHopByHopHeaders (names : list string → list string)
    (h : gmap string (list string)) : gmap string (list string) :=
  let h := foldr delete h (names (default [] (h !! "Connection"))) in
  foldr delete h hopHeaders.

(** ** internal/backend: data *)

(** A [*Backend] is an address in the heap of Backend objects. *)
Definition ptr : Type := nat.

(** [passiveHealthCheckTransport]; its [transport] field is always the
    dialing [http.Transport] built in [NewBackend], that is, the network. *)
Record passiveHealthCheckTransport : Type := {
  backend : ptr
}.

(** [httputil.ReverseProxy]: the target it was built for and its [Transport]
    field ([None] is Go's nil: the proxy then uses the default transport). *)
Record httputil_ReverseProxy : Type := {
  Target : url_URL;
  Transport : option passiveHealthCheckTransport
}.

(** [type Backend struct]; [mux] guards [Alive] and has no state of its own
    in a sequential run. *)
Record Backend : Type := {
  URL : url_URL;
  Alive : bool;
  ReverseProxy : httputil_ReverseProxy
}.

(** ** internal/pool: data *)

(** [type ServerPool struct]: the slice of backend pointers and the
    [uint64] cursor. *)
Record ServerPool : Type := {
  backends : list ptr;
  current : Z
}.

(** ** Observable effects *)

(** The lines the program logs, one constructor per format string. *)
Inductive logmsg : Type :=
| LogPassiveFailed (url err : string)      (* "[PASSIVE] Backend %s failed: %v - marking as DOWN" *)
| LogPassive5xx (url : string) (code : Z)  (* "[PASSIVE] Backend %s returned %d - marking as DOWN" *)
| LogCreated (url : string)                (* "Created backend %s with passive health check enabled" *)
| LogAdded (urlStr : string)               (* "Added backend: %s" *)
| LogRecovered (url : string)              (* "Backend %s recovered (DOWN -> UP)" *)
| LogFailedHealthCheck (url : string)      (* "Backend %s failed health check (UP -> DOWN)" *)
| LogNoBackend (r : Request)               (* "... -> NO BACKEND AVAILABLE (503)" *)
| LogMarkedDown (r : Request) (url : string) (attempt : Z)
                                           (* "... -> %s is marked DOWN, trying next (attempt %d)" *)
| LogForward (r : Request) (url : string) (attempt : Z)
                                           (* "... -> %s (attempt %d)" *)
| LogAllRetriesFailed (r : Request)        (* "... -> ALL RETRIES FAILED (503)" *)
| LogProxyError (err : string).            (* httputil: "http: proxy error: %v" *)

Inductive event : Type :=
| EvLog (m : logmsg)                       (* log.Printf *)
| EvSleep (ms : Z)                         (* time.Sleep, in milliseconds *)
| EvSetAlive (b : ptr) (alive : bool)      (* the write [b.Alive = alive] *)
| EvDial (addr : string)                   (* net.DialTimeout("tcp", addr, timeout) *)
| EvSend (target : url_URL) (r : Request). (* one exchange attempted on the network *)

(** ** The world *)

Record world : Type := {
  heap : list Backend;        (* Backend objects by address *)
  serverPool : ServerPool;    (* the one pool main creates *)
  trace : list event;         (* effects so far, oldest first *)
  dialed : nat;               (* TCP dials so far *)
  sent : nat                  (* exchanges attempted so far *)
}.

(** [serverPool := &pool.ServerPool{}] in a fresh process. *)
Definition world0 : world :=
  {| heap := []; serverPool := {| backends := []; current := 0 |};
     trace := []; dialed := 0; sent := 0 |}.

Definition with_heap (h : list Backend) (w : world) : world :=
  {| heap := h; serverPool := serverPool w; trace := trace w;
     dialed := dialed w; sent := sent w |}.

Definition with_pool (s : ServerPool) (w : world) : world :=
  {| heap := heap w; serverPool := s; trace := trace w;
     dialed := dialed w; sent := sent w |}.

Definition with_event (e : event) (w : world) : world :=
  {| heap := heap w; serverPool := serverPool w; trace := trace w ++ [e];
     dialed := dialed w; sent := sent w |}.

(** ** The monad: state over [world], with aborts *)

Definition M (A : Type) : Type := world → result (A * world).

Definition ret {A} (a : A) : M A := λ w, Ok (a, w).

Definition bind {A B} (m : M A) (k : A → M B) : M B :=
  λ w, match m w with
       | Ok (a, w') => k a w'
       | Abort e => Abort e
       end.

Definition raise {A} (e : abort) : M A := λ _, Abort e.

Declare Scope go_scope.
Delimit Scope go_scope with go.
Notation "x <- m ;; k" := (bind m (λ x, k))
  (at level 100, m at next level, right associativity) : go_scope.
Notation "m ;; k" := (bind m (λ _, k))
  (at level 100, right associativity) : go_scope.
Open Scope go_scope.

Definition emit (e : event) : M unit := λ w, Ok (tt, with_event e w).

(** [*b]: reading through a pointer that names no object panics. *)
Definition deref (b : ptr) : M Backend :=
  λ w, match heap w !! b with
       | Some o => Ok (o, w)
       | None => Abort NilDereference
       end.

Definition store (b : ptr) (o : Backend) : M unit :=
  λ w, match heap w !! b with
       | Some _ => Ok (tt, with_heap (<[b := o]> (heap w)) w)
       | None => Abort NilDereference
       end.

(** [&Backend{...}]: a new object at the next free address; [mk] receives
    that address. *)
Definition alloc (mk : ptr → Backend) : M ptr :=
  λ w, let b := length (heap w) in Ok (b, with_heap (heap w ++ [mk b]) w).

(** [for _, x := range l { body(x) }] *)
Fixpoint for_range {A} (l : list A) (body : A → M unit) : M unit :=
  match l with
  | [] => ret tt
  | x :: l' => body x ;; for_range l' body
  end.

(** ** internal/backend/backend.go *)

(** [func (b *Backend) SetAlive(alive bool)] *)
Definition SetAlive (b : ptr) (alive : bool) : M unit :=
  o <- deref b ;;
  store b {| URL := URL o; Alive := alive; ReverseProxy := ReverseProxy o |} ;;
  emit (EvSetAlive b alive).

(** [func (b *Backend) IsAlive() bool] *)
Definition IsAlive (b : ptr) : M bool :=
  o <- deref b ;;
  ret (Alive o).

Section Environment.

(** What the program does not decide: the parser of net/url, and the network.
    The [k]-th TCP dial of the run to [addr] succeeds iff [dial k addr]; the
    [k]-th exchange of the run, request [r] sent to [target], yields
    [exchange k target r]: a response, or a transport-level error. *)
Variable url_Parse : string → url_URL + string.
Variable dial : nat → string → bool.
Variable exchange : nat → url_URL → Request → Response + string.

(** Of the standard library: how the header names listed in the values of
    a [Connection] header are read ([strings.Split] at commas,
    [textproto.TrimString], canonical header spelling). *)
Variable connectionHeaderNames : list string → list string.

(** [t.transport.RoundTrip(req)] on the dialing transport.  The outgoing
    request of the proxy is the inbound request re-addressed to the proxy's
    target; it is kept as that pair. *)
Definition transport_RoundTrip (req : url_URL * Request) : M (Response + string) :=
  λ w, Ok (exchange (sent w) req.1 req.2,
           {| heap := heap w; serverPool := serverPool w;
              trace := trace w ++ [EvSend req.1 req.2];
              dialed := dialed w; sent := S (sent w) |}).

(** [func (t *passiveHealthCheckTransport) RoundTrip(req)], returning the response or the error *)
Definition RoundTrip (t : passiveHealthCheckTransport) (req : url_URL * Request)
  : M (Response + string) :=
  r <- transport_RoundTrip req ;;
  match r with
  | inr err =>
      alive <- IsAlive (backend t) ;;
      (if alive then
         o <- deref (backend t) ;;
         emit (EvLog (LogPassiveFailed (url_String (URL o)) err)) ;;
         SetAlive (backend t) false
       else ret tt) ;;
      ret (inr err)
  | inl resp =>
      (if (500 <=? StatusCode resp)%Z then
         o <- deref (backend t) ;;
         emit (EvLog (LogPassive5xx (url_String (URL o)) (StatusCode resp))) ;;
         SetAlive (backend t) false
       else ret tt) ;;
      ret (inl resp)
  end.

(** [func NewBackend(urlStr string)], returning the new backend or the error *)
Definition NewBackend (urlStr : string) : M (ptr + string) :=
  match url_Parse urlStr with
  | inr err => ret (inr err)
  | inl parsedURL =>
      backend <- alloc (λ _, {| URL := parsedURL; Alive := true;
                                ReverseProxy := {| Target := parsedURL; Transport := None |} |}) ;;
      o <- deref backend ;;
      store backend
        {| URL := URL o; Alive := Alive o;
           ReverseProxy := {| Target := Target (ReverseProxy o);
                              Transport := Some {| backend := backend |} |} |} ;;
      emit (EvLog (LogCreated (url_String parsedURL))) ;;
      ret (inl backend)
  end.

(** [ServeHTTP] of [httputil.ReverseProxy] in the standard library, as the
    handler and the client observe it for an ordinary request (no protocol
    upgrade, no trailers) whose response body is read to its end: one round
    trip on the proxy's transport; on an error the default error handler
    logs it and answers 502 Bad Gateway; otherwise the hop-by-hop headers
    are removed from the response, and its remaining headers, its status
    and its body are copied to the client. *)
Definition ServeHTTP (p : httputil_ReverseProxy) (rw : ResponseWriter) (req : Request)
  : M ResponseWriter :=
  r <- match Transport p with
       | Some t => RoundTrip t (Target p, req)
       | None => transport_RoundTrip (Target p, req)
       end ;;
  match r with
  | inr err =>
      emit (EvLog (LogProxyError err)) ;;
      ret (WriteHeader rw StatusBadGateway)
  | inl res =>
      let resHeader := removeHopByHopHeaders connectionHeaderNames (Header res) in
      let rw := {| wHeader := copyHeader (wHeader rw) resHeader;
                   wStatus := wStatus rw; wBody := wBody rw |} in
      let rw := WriteHeader rw (StatusCode res) in
      ret (rw_Write rw (Body res))
  end.

(** ** internal/pool/pool.go *)

(** [len(s.backends)] *)
Definition len_backends : M Z :=
  λ w, Ok (Z.of_nat (length (backends (serverPool w))), w).

(** [s.backends[idx]] *)
Definition index_backends (idx : Z) : M ptr :=
  λ w, if (idx <? 0)%Z then Abort IndexOutOfRange
       else match backends (serverPool w) !! Z.to_nat idx with
            | Some b => Ok (b, w)
            | None => Abort IndexOutOfRange
            end.

(** [atomic.AddUint64(&s.current, delta)]: returns the new value. *)
Definition atomic_AddUint64_current (delta : Z) : M Z :=
  λ w, let new := uint64 (current (serverPool w) + delta) in
       Ok (new, with_pool {| backends := backends (serverPool w); current := new |} w).

(** [atomic.StoreUint64(&s.current, val)] *)
Definition atomic_StoreUint64_current (val : Z) : M unit :=
  λ w, Ok (tt, with_pool {| backends := backends (serverPool w); current := val |} w).

(** [a % b]: truncated remainder, panics on a zero divisor. *)
Definition go_rem (a b : Z) : M Z :=
  if (b =? 0)%Z then raise DivideByZero else ret (Z.rem a b).

(** [func (s *ServerPool) AddBackend(b *backend.Backend)] *)
Definition AddBackend (b : ptr) : M unit :=
  λ w, Ok (tt, with_pool {| backends := backends (serverPool w) ++ [b];
                            current := current (serverPool w) |} w).

(** [func (s *ServerPool) GetPoolSize() int] *)
Definition GetPoolSize : M Z := len_backends.

(** [func (s *ServerPool) NextIndex() int] *)
Definition NextIndex : M Z :=
  poolSize <- len_backends ;;
  if (poolSize =? 0)%Z then ret 0%Z
  else
    n <- atomic_AddUint64_current 1 ;;
    r <- go_rem n (uint64 poolSize) ;;
    ret (int r).

(** The loop [for i := 0; i < poolSize; i++] of [GetNextPeer], entered at
    [i] with [fuel = poolSize - i] iterations left. *)
Fixpoint GetNextPeer_scan (fuel : nat) (poolSize next i : Z) : M (option ptr) :=
  match fuel with
  | O => ret None                            (* "No alive backends found" *)
  | S fuel' =>
      idx <- go_rem (int (next + i)) poolSize ;;
      backend <- index_backends idx ;;
      alive <- IsAlive backend ;;
      if alive then
        atomic_StoreUint64_current (uint64 idx) ;;
        ret (Some backend)
      else GetNextPeer_scan fuel' poolSize next (int (i + 1))
  end.

(** [func (s *ServerPool) GetNextPeer() *backend.Backend]; [None] is nil. *)
Definition GetNextPeer : M (option ptr) :=
  poolSize <- len_backends ;;
  if (poolSize =? 0)%Z then ret None
  else
    next <- NextIndex ;;
    GetNextPeer_scan (Z.to_nat poolSize) poolSize next 0.

(** The loop of [MarkBackendStatus]: the first backend with that URL is
    written, then [break]. *)
Fixpoint MarkBackendStatus_range (bs : list ptr) (backendURL : url_URL) (alive : bool) : M unit :=
  match bs with
  | [] => ret tt
  | b :: bs' =>
      o <- deref b ;;
      if String.eqb (url_String (URL o)) (url_String backendURL)
      then SetAlive b alive
      else MarkBackendStatus_range bs' backendURL alive
  end.

(** [func (s *ServerPool) MarkBackendStatus(backendURL *url.URL, alive bool)] *)
Definition MarkBackendStatus (backendURL : url_URL) (alive : bool) : M unit :=
  λ w, MarkBackendStatus_range (backends (serverPool w)) backendURL alive w.

(** [func (s *ServerPool) GetBackends() []*backend.Backend]: a copy of the
    slice; the pointers still name the same objects. *)
Definition GetBackends : M (list ptr) :=
  λ w, Ok (backends (serverPool w), w).

(** The loop of [GetPoolStatus]. *)
Fixpoint GetPoolStatus_range (bs : list ptr) (alive : Z) : M Z :=
  match bs with
  | [] => ret alive
  | b :: bs' =>
      a <- IsAlive b ;;
      GetPoolStatus_range bs' (if a then int (alive + 1) else alive)
  end.

(** [func (s *ServerPool) GetPoolStatus() (alive, total int)] *)
Definition GetPoolStatus : M (Z * Z) :=
  total <- len_backends ;;
  bs <- GetBackends ;;
  alive <- GetPoolStatus_range bs 0 ;;
  ret (alive, total).

(** ** internal/health/checker.go *)

(** [net.DialTimeout("tcp", host, h.timeout)]: [true] when [err == nil]. *)
Definition net_DialTimeout (host : string) : M bool :=
  λ w, Ok (dial (dialed w) host,
           {| heap := heap w; serverPool := serverPool w;
              trace := trace w ++ [EvDial host];
              dialed := S (dialed w); sent := sent w |}).

(** [func (h *HealthChecker) isBackendAlive(u *url.URL) bool] *)
Definition isBackendAlive (u : url_URL) : M bool :=
  let host := Host u in
  let host :=
    if String.eqb (url_Port u) "" then
      if String.eqb (Scheme u) "https" then host +:+ ":443" else host +:+ ":80"
    else host in
  connected <- net_DialTimeout host ;;
  if negb connected then ret false
  else ret true.

(** The body of the loop of [checkHealth], for one backend of the snapshot. *)
Definition checkHealth_body (backend : ptr) : M unit :=
  o <- deref backend ;;
  alive <- isBackendAlive (URL o) ;;
  wasAlive <- IsAlive backend ;;
  if negb (Bool.eqb alive wasAlive) then
    (if alive then emit (EvLog (LogRecovered (url_String (URL o))))
     else emit (EvLog (LogFailedHealthCheck (url_String (URL o))))) ;;
    SetAlive backend alive
  else ret tt.

(** [func (h *HealthChecker) checkHealth()] *)
Definition checkHealth : M unit :=
  backends <- GetBackends ;;
  for_range backends checkHealth_body.

(** ** cmd/nexus/main.go *)

Definition maxRetries : Z := 3.

Definition backendURLs : list string :=
  ["http://localhost:8081"; "http://localhost:8082"; "http://localhost:8083"].

(** The start-up loop of [main]: [for _, urlStr := range backendURLs]. *)
Definition main_addBackends (urls : list string) : M unit :=
  for_range urls (λ urlStr,
    r <- NewBackend urlStr ;;
    match r with
    | inr err => raise (Fatal ("Failed to create backend for " +:+ urlStr +:+ ": " +:+ err))
    | inl backend =>
        AddBackend backend ;;
        emit (EvLog (LogAdded urlStr))
    end).

(** The loop [for attempts < maxRetries] of the request handler, entered
    with [fuel = maxRetries - attempts] iterations left; leaving the loop
    by its condition is the [O] case. *)
Fixpoint handler_loop (fuel : nat) (attempts : Z) (w : ResponseWriter) (r : Request)
  : M ResponseWriter :=
  match fuel with
  | O =>
      emit (EvLog (LogAllRetriesFailed r)) ;;
      ret (http_Error w "Service Unavailable" StatusServiceUnavailable)
  | S fuel' =>
      let attempts := int (attempts + 1) in
      peer <- GetNextPeer ;;
      match peer with
      | None =>
          if (attempts <? maxRetries)%Z then
            emit (EvSleep 10) ;;
            handler_loop fuel' attempts w r
          else
            emit (EvLog (LogNoBackend r)) ;;
            ret (http_Error w "Service Unavailable" StatusServiceUnavailable)
      | Some peer =>
          alive <- IsAlive peer ;;
          if negb alive then
            o <- deref peer ;;
            emit (EvLog (LogMarkedDown r (url_String (URL o)) attempts)) ;;
            handler_loop fuel' attempts w r
          else
            o <- deref peer ;;
            emit (EvLog (LogForward r (url_String (URL o)) attempts)) ;;
            let w := Header_Set w "X-Forwarded-By" "Nexus" in
            let w := Header_Set w "X-Backend-Server" (url_String (URL o)) in
            ServeHTTP (ReverseProxy o) w r
      end
  end.

(** The [http.HandlerFunc] of [main]. *)
Definition handler (w : ResponseWriter) (r : Request) : M ResponseWriter :=
  handler_loop (Z.to_nat maxRetries) 0 w r.

End Environment.

(** ** test/loadtest.go: the sequential load test

    The client program, run on its own.  [printSummary] formats floating
    point percentages and is left out; so are the banner lines printed
    before the first request. *)

(** [int64(z)]: two's complement wrap-around. *)
Definition int64 (z : Z) : Z := ((z + 2 ^ 63) mod 2 ^ 64 - 2 ^ 63)%Z.

(** [type Stats struct]; [backendCounts] maps a backend name to its own
    counter ([startTime] and the mutex carry nothing in a sequential run). *)
Record Stats : Type := {
  totalRequests : Z;
  successRequests : Z;
  failedRequests : Z;
  backendCounts : gmap string Z
}.

(** [func (s *Stats) recordSuccess(backend string)] *)
Definition recordSuccess (backend : string) (s : Stats) : Stats :=
  let success := int64 (successRequests s + 1) in
  let counts :=
    match backendCounts s !! backend with
    | None => <[backend := 0%Z]> (backendCounts s)       (* var count int64 *)
    | Some _ => backendCounts s
    end in
  {| totalRequests := totalRequests s;
     successRequests := success;
     failedRequests := failedRequests s;
     backendCounts := alter (λ c, int64 (c + 1)) backend counts |}.

(** [func (s *Stats) recordFailure()] *)
Definition recordFailure (s : Stats) : Stats :=
  {| totalRequests := totalRequests s;
     successRequests := successRequests s;
     failedRequests := int64 (failedRequests s + 1);
     backendCounts := backendCounts s |}.

(** What the client prints per request, and its pauses. *)
Inductive client_event : Type :=
| PrintFailed (requestNum : Z) (err : string)        (* "[%d] FAILED: %v" *)
| PrintSuccess (requestNum : Z) (status : Z) (backend : string)
                                                     (* "[%d] SUCCESS: Status=%d, Backend=%s" *)
| ClientSleep (ms : Z).                              (* time.Sleep *)

(** The state of a test run: the statistics, the output so far and the
    number of requests sent so far. *)
Record client : Type := {
  stats : Stats;
  output : list client_event;
  requests : nat
}.

(** [h.Get(key)]: the first value under [key], or the empty string. *)
Definition Header_Get (h : gmap string (list string)) (key : string) : string :=
  match h !! key with
  | Some (v :: _) => v
  | _ => ""
  end.

Section LoadTest.

(** [client.Get(url)] for the [k]-th request of the run: a response, or an
    error (timeout, refused connection). *)
Variable client_Get : nat → string → Response + string.

(** [func sendRequest(url string, requestNum int, stats *Stats)] *)
Definition sendRequest (url : string) (requestNum : Z) (c : client) : client :=
  match client_Get (requests c) url with
  | inr err =>
      {| stats := recordFailure (stats c);
         output := output c ++ [PrintFailed requestNum err];
         requests := S (requests c) |}
  | inl resp =>
      let backend := Header_Get (Header resp) "X-Backend-Server" in
      let backend := if String.eqb backend "" then "Unknown" else backend in
      {| stats := recordSuccess backend (stats c);
         output := output c ++ [PrintSuccess requestNum (StatusCode resp) backend];
         requests := S (requests c) |}
  end.

(** The loop [for i := 1; i <= numRequests; i++] of [runSequentialTest],
    entered at [i] with [fuel = numRequests - i + 1] iterations left (for
    [numRequests] below the largest [int], where [i++] does not wrap). *)
Fixpoint runSequentialTest_loop (fuel : nat) (url : string) (numRequests delayMs i : Z)
    (c : client) : client :=
  match fuel with
  | O => c
  | S fuel' =>
      let c := sendRequest url i c in
      let c :=
        if (0 <? delayMs)%Z && (i <? numRequests)%Z then
          {| stats := stats c; output := output c ++ [ClientSleep delayMs];
             requests := requests c |}
        else c in
      runSequentialTest_loop fuel' url numRequests delayMs (int (i + 1)) c
  end.

(** [func runSequentialTest(url string, numRequests int, delayMs int)], up
    to the call of [printSummary]. *)
Definition runSequentialTest (url : string) (numRequests delayMs : Z) : client :=
  let stats := {| totalRequests := int64 numRequests;
                  successRequests := 0; failedRequests := 0;
                  backendCounts := ∅ |} in
  runSequentialTest_loop (Z.to_nat numRequests) url numRequests delayMs 1
    {| stats := stats; output := []; requests := 0 |}.

End LoadTest.

(** The sum of the per-backend counters. *)
Definition countsTotal (m : gmap string Z) : Z :=
  map_fold (λ _ v acc, (v + acc)%Z) 0%Z m.

(** The number of pauses in the client's output. *)
Definition pauses (l : list client_event) : nat :=
  length (omap (λ e, match e with ClientSleep ms => Some ms | _ => None end) l).

(** * Properties *)

(** ** Vocabulary *)

(** The liveness flag behind a pointer, if the pointer names an object. *)
Definition liveness (w : world) (b : ptr) : option bool := Alive <$> heap w !! b.

Definition poolLen (w : world) : Z := Z.of_nat (length (backends (serverPool w))).

(** What the Go runtime guarantees of the pool's slice: a slice of 8-byte
    pointers in a 64-bit address space has at most [2^61] elements.  And what
    [main] guarantees: no nil was added. *)
Definition pool_wf (w : world) : Prop :=
  (poolLen w ≤ 2 ^ 61)%Z ∧ Forall (λ b, is_Some (heap w !! b)) (backends (serverPool w)).

(** The object [o] after [o.Alive = alive]. *)
Definition setAlive (alive : bool) (o : Backend) : Backend :=
  {| URL := URL o; Alive := alive; ReverseProxy := ReverseProxy o |}.

(** The object [NewBackend] leaves at address [b] for the parsed URL [u]. *)
Definition newBackend (u : url_URL) (b : ptr) : Backend :=
  {| URL := u; Alive := true;
     ReverseProxy := {| Target := u; Transport := Some {| backend := b |} |} |}.

(** The endpoint identities registered in the pool, in pool order. *)
Definition endpoints (w : world) : list (option string) :=
  (λ b, (λ o, url_String (URL o)) <$> heap w !! b) <$> backends (serverPool w).

(** The targets of the exchanges attempted on the network, oldest first:
    one per forward attempt. *)
Definition forwards (t : list event) : list url_URL :=
  omap (λ e, match e with EvSend target _ => Some target | _ => None end) t.

(** Sample data: the parsed form of the configured URLs, as [url.Parse]
    returns it. *)
Definition sampleURL (port : string) : url_URL :=
  {| Scheme := "http"; Host := "localhost:" +:+ port;
     url_Port := port; url_String := "http://localhost:" +:+ port |}.

(** Sample environment: [url.Parse] of the standard library (Go 1.21 and
    later), on strings made of letters, digits and [- . _ ~ : /] only, of
    these shapes: a leading colon (an error); [scheme:opaque]; a path with
    no scheme (an error when its first segment holds a colon);
    [scheme://host], [scheme://host:port], each with or without a path
    (an error when the port is not a number).  The scheme is lower-cased as
    [url.Parse] does, and [url_String] is what [URL.String] rebuilds.  Any
    other string is outside the sample. *)
Definition is_letter (c : ascii) : bool :=
  let n := nat_of_ascii c in
  ((65 <=? n) && (n <=? 90) || (97 <=? n) && (n <=? 122))%nat.

Definition is_digit (c : ascii) : bool :=
  let n := nat_of_ascii c in ((48 <=? n) && (n <=? 57))%nat.

Definition is_plain (c : ascii) : bool :=
  is_letter c || is_digit c
  || existsb (Ascii.eqb c) ["-"; "."; "_"; "~"; ":"; "/"]%char.

Definition toLower (c : ascii) : ascii :=
  let n := nat_of_ascii c in
  if ((65 <=? n) && (n <=? 90))%nat then ascii_of_nat (n + 32) else c.

Fixpoint string_forall (p : ascii → bool) (s : string) : bool :=
  match s with
  | EmptyString => true
  | String c s' => p c && string_forall p s'
  end.

Fixpoint string_map (f : ascii → ascii) (s : string) : string :=
  match s with
  | EmptyString => EmptyString
  | String c s' => String (f c) (string_map f s')
  end.

(** [strings.Cut] at a one-byte separator. *)
Fixpoint cut (sep : ascii) (s : string) : string * option string :=
  match s with
  | EmptyString => (EmptyString, None)
  | String c s' =>
      if Ascii.eqb c sep then (EmptyString, Some s')
      else let '(before, after) := cut sep s' in (String c before, after)
  end.

(** [getScheme] of net/url: the scheme is a letter followed by letters,
    digits, [+], [-], [.], up to the first colon; a colon at index 0 is
    the error; any other byte before a colon means there is no scheme. *)
Fixpoint getScheme_loop (rawURL : string) (i : nat) (scheme rest : string)
    : (string * string) + string :=
  match rest with
  | EmptyString => inl (EmptyString, rawURL)
  | String c rest' =>
      if is_letter c then
        getScheme_loop rawURL (S i) (scheme +:+ String c EmptyString) rest'
      else if is_digit c || Ascii.eqb c "+" || Ascii.eqb c "-" || Ascii.eqb c "." then
        if (i =? 0)%nat then inl (EmptyString, rawURL)
        else getScheme_loop rawURL (S i) (scheme +:+ String c EmptyString) rest'
      else if Ascii.eqb c ":" then
        if (i =? 0)%nat then inr "missing protocol scheme"
        else inl (scheme, rest')
      else inl (EmptyString, rawURL)
  end.

Definition getScheme (rawURL : string) : (string * string) + string :=
  getScheme_loop rawURL 0 EmptyString rawURL.

(** [%q] of a string of plain characters: the string between double
    quotes. *)
Definition quoted (s : string) : string :=
  String (ascii_of_nat 34) s +:+ String (ascii_of_nat 34) EmptyString.

(** The text of the [*url.Error] that [url.Parse] returns. *)
Definition url_Error (s err : string) : string :=
  "parse " +:+ quoted s +:+ ": " +:+ err.

Definition outside_sample : url_URL + string := inr "outside the sample".

(** A URL without authority. *)
Definition reference (scheme s : string) : url_URL :=
  {| Scheme := scheme; Host := EmptyString; url_Port := EmptyString; url_String := s |}.

Definition sample_Parse (s : string) : url_URL + string :=
  if negb (string_forall is_plain s) then outside_sample
  else
    match getScheme s with
    | inr err => inr (url_Error s err)
    | inl (scheme, rest) =>
        let scheme := string_map toLower scheme in
        match rest with
        | String "/" (String "/" rest') =>
            let '(authority, path) := cut "/" rest' in
            let path := from_option (String "/") EmptyString path in
            let '(host, port) := cut ":" authority in
            if String.eqb scheme EmptyString || String.eqb host EmptyString
            then outside_sample
            else
              match port with
              | None =>
                  inl {| Scheme := scheme; Host := authority; url_Port := EmptyString;
                         url_String := scheme +:+ "://" +:+ authority +:+ path |}
              | Some port =>
                  if negb (string_forall (λ c, negb (Ascii.eqb c ":")) port)
                  then outside_sample
                  else if negb (string_forall is_digit port)
                  then inr (url_Error s ("invalid port " +:+ quoted (":" +:+ port)
                                         +:+ " after host"))
                  else
                    inl {| Scheme := scheme; Host := authority; url_Port := port;
                           url_String := scheme +:+ "://" +:+ authority +:+ path |}
              end
        | String "/" _ =>
            if String.eqb scheme EmptyString then inl (reference EmptyString s)
            else outside_sample
        | _ =>
            if String.eqb scheme EmptyString then
              if string_forall (λ c, negb (Ascii.eqb c ":")) (cut "/" rest).1
              then inl (reference EmptyString s)
              else inr (url_Error s "first path segment in URL cannot contain colon")
            else inl (reference scheme (scheme +:+ ":" +:+ rest))
        end
    end.

Definition sampleRequest : Request := {| Method := "GET"; Path := "/" |}.

Definition sampleResponse (code : Z) : Response :=
  {| StatusCode := code; Header := {["Content-Type" := ["text/html"]]}; Body := "body" |}.

(** A configuration that names one endpoint twice. *)
Definition duplicateURLs : list string :=
  ["http://localhost:8081"; "http://localhost:8081"].

(** A client-side network: the first request of the run times out, every
    later one is answered with 200 by the backend on port 8081. *)
Definition sample_Get (k : nat) (url : string) : Response + string :=
  match k with
  | O => inr "timeout"
  | S _ => inl {| StatusCode := 200;
                  Header := {["X-Backend-Server" := ["http://localhost:8081"]]};
                  Body := "body" |}
  end.

(** The header names listed by a [Connection] header that is absent or
    lists nothing, as in the sample responses. *)
Definition no_connection_names (values : list string) : list string := [].

(** A 503 response that carries a hop-by-hop header. *)
Definition sampleResponse5xx : Response :=
  {| StatusCode := 503;
     Header := {["Content-Type" := ["text/html"]; "Keep-Alive" := ["timeout=5"]]};
     Body := "overloaded" |}.

(** The world the start-up loop builds from [urls]. *)
Definition started (urls : list string) : world :=
  match main_addBackends sample_Parse urls world0 with
  | Ok (_, w) => w
  | Abort _ => world0
  end.

(** [w] with every Backend object marked DOWN. *)
Definition all_down (w : world) : world :=
  with_heap (setAlive false <$> heap w) w.

(** A network on which the first exchange of the run fails at transport
    level and every later one is answered with 200. *)
Definition fail_then_succeed (k : nat) (target : url_URL) (r : Request)
  : Response + string :=
  match k with
  | O => inr "connection refused"
  | S _ => inl (sampleResponse 200)
  end.

(** The world after [atomic.StoreUint64(&s.current, c)]. *)
Definition pinned (c : Z) (w : world) : world :=
  with_pool {| backends := backends (serverPool w); current := c |} w.

(** The backend at offset [j] of a scan that starts at index [next]. *)
Definition slot (w : world) (next j : Z) : option ptr :=
  backends (serverPool w) !! Z.to_nat ((next + j) mod poolLen w).

(** The index at which [GetNextPeer] starts scanning. *)
Definition startIndex (w : world) : Z :=
  (uint64 (current (serverPool w) + 1) mod poolLen w)%Z.

(** [n] consecutive calls of [GetNextPeer], collecting what they return. *)
Fixpoint GetNextPeer_times (n : nat) : M (list (option ptr)) :=
  match n with
  | O => ret []
  | S n' =>
      r <- GetNextPeer ;;
      rs <- GetNextPeer_times n' ;;
      ret (r :: rs)
  end.

(** The number of pool entries whose backend is alive. *)
Definition aliveCount (w : world) : Z :=
  Z.of_nat (length (filter (λ b, liveness w b = Some true) (backends (serverPool w)))).

(** [b] is the first backend of the pool whose URL prints as [u] does. *)
Definition first_match (w : world) (u : url_URL) (b : ptr) (o : Backend) : Prop :=
  ∃ pre post,
    backends (serverPool w) = pre ++ b :: post ∧
    Forall (λ b', ∃ o', heap w !! b' = Some o' ∧
                        url_String (URL o') ≠ url_String u) pre ∧
    heap w !! b = Some o ∧ url_String (URL o) = url_String u.

(** Every Backend object is as [NewBackend] builds it: its proxy targets
    its own URL and the proxy's transport reports to the object itself. *)
Definition wired (w : world) : Prop :=
  ∀ b o, heap w !! b = Some o →
    ReverseProxy o = {| Target := URL o; Transport := Some {| backend := b |} |}.

(** The address [isBackendAlive] dials for [u]. *)
Definition dialAddress (u : url_URL) : string :=
  if String.eqb (url_Port u) "" then
    if String.eqb (Scheme u) "https" then Host u +:+ ":443" else Host u +:+ ":80"
  else Host u.

(** What holds of the statistics between two requests of a test run:
    successes and failures add up to the requests sent, the per-backend
    counters add up to the successes, and every listed backend has served
    at least one request. *)
Definition stats_consistent (c : client) : Prop :=
  (0 ≤ successRequests (stats c))%Z ∧ (0 ≤ failedRequests (stats c))%Z ∧
  (successRequests (stats c) + failedRequests (stats c) = Z.of_nat (requests c))%Z ∧
  countsTotal (backendCounts (stats c)) = successRequests (stats c) ∧
  ∀ k v, backendCounts (stats c) !! k = Some v → (0 < v ≤ successRequests (stats c))%Z.

(** ** Tactics for concrete pools *)

(** [pool_wf] of a concrete world, by evaluation. *)
Ltac pool_wf_by_computation :=
  split; [vm_compute; discriminate | repeat constructor; eexists; reflexivity].

(** The forward attempts of a trace given as appended event lists. *)
Ltac forwards_of_trace :=
  unfold forwards; rewrite ?omap_app; simpl; rewrite ?app_nil_r; done.


(** A goal about every backend [b] of a concrete pool, from [H : b ∈ ...]. *)
Ltac each_backend H :=
  apply list_elem_of_In in H; simpl in H;
  repeat (destruct H as [<-|H]; [reflexivity|]); destruct H.

(** ** The monad *)

Lemma bind_Ok {A B} (m : M A) (k : A → M B) w a w' :
  m w = Ok (a, w') → bind m k w = k a w'.
Proof. unfold bind. by intros ->. Qed.

Lemma bind_Abort {A B} (m : M A) (k : A → M B) w e :
  m w = Abort e → bind m k w = Abort e.
Proof. unfold bind. by intros ->. Qed.

Lemma bind_inv {A B} (m : M A) (k : A → M B) w b w'' :
  bind m k w = Ok (b, w'') → ∃ a w', m w = Ok (a, w') ∧ k a w' = Ok (b, w'').
Proof.
  unfold bind. destruct (m w) as [[a w']|e]; [|done]. intros H. by exists a, w'.
Qed.

(** ** Go integers *)

Lemma int_small z : (- 2 ^ 63 ≤ z < 2 ^ 63)%Z → int z = z.
Proof. intros H. unfold int. rewrite Z.mod_small; lia. Qed.

Lemma uint64_small z : (0 ≤ z < 2 ^ 64)%Z → uint64 z = z.
Proof. intros H. unfold uint64. by rewrite Z.mod_small. Qed.

Lemma uint64_range z : (0 ≤ uint64 z < 2 ^ 64)%Z.
Proof. unfold uint64. apply Z.mod_pos_bound. lia. Qed.

(** ** Backend *)

Lemma liveness_Some w b v :
  liveness w b = Some v ↔ ∃ o, heap w !! b = Some o ∧ Alive o = v.
Proof.
  unfold liveness. destruct (heap w !! b) as [o|]; simpl; split.
  - intros [= <-]. by exists o.
  - by intros (o' & [= <-] & <-).
  - done.
  - by intros (? & ? & _).
Qed.

Lemma IsAlive_eq w b v : liveness w b = Some v → IsAlive b w = Ok (v, w).
Proof.
  intros (o & Ho & <-)%liveness_Some.
  unfold IsAlive, bind, deref, ret. by rewrite Ho.
Qed.

Lemma liveness_pinned c w b : liveness (pinned c w) b = liveness w b.
Proof. done. Qed.

Lemma pool_wf_liveness w b :
  pool_wf w → b ∈ backends (serverPool w) → ∃ v, liveness w b = Some v.
Proof.
  intros [_ Hall] Hb. rewrite Forall_forall in Hall.
  destruct (Hall b Hb) as [o Ho]. exists (Alive o). apply liveness_Some. eauto.
Qed.

(** ** ServerPool: the scan of [GetNextPeer] *)

Lemma slot_is_Some w next j :
  (0 < poolLen w)%Z → ∃ b, slot w next j = Some b ∧ b ∈ backends (serverPool w).
Proof.
  intros HN. unfold slot.
  pose proof (Z.mod_pos_bound (next + j) (poolLen w) HN) as Hm.
  destruct (lookup_lt_is_Some_2 (backends (serverPool w))
              (Z.to_nat ((next + j) mod poolLen w))) as [b Hb].
  { unfold poolLen in *. lia. }
  exists b. split; [done|]. by eapply list_elem_of_lookup_2.
Qed.

Lemma GetNextPeer_scan_spec (w : world) (next : Z) :
  pool_wf w → (0 ≤ next < poolLen w)%Z →
  ∀ (fuel : nat) (i : Z), (0 ≤ i)%Z → (i + Z.of_nat fuel = poolLen w)%Z →
    (∃ j b, (i ≤ j < poolLen w)%Z ∧ slot w next j = Some b ∧
            liveness w b = Some true ∧
            (∀ j', (i ≤ j' < j)%Z →
               ∃ b', slot w next j' = Some b' ∧ liveness w b' = Some false) ∧
            GetNextPeer_scan fuel (poolLen w) next i w
              = Ok (Some b, pinned ((next + j) mod poolLen w) w))
    ∨ ((∀ j', (i ≤ j' < poolLen w)%Z →
          ∃ b', slot w next j' = Some b' ∧ liveness w b' = Some false) ∧
       GetNextPeer_scan fuel (poolLen w) next i w = Ok (None, w)).
Proof.
  intros Hwf Hnext fuel. induction fuel as [|fuel IH]; intros i Hi Hfuel.
  - right. split; [intros; lia | done].
  - assert (0 < poolLen w)%Z as HN by lia.
    destruct (slot_is_Some w next i HN) as (b & Hslot & Hin).
    destruct (pool_wf_liveness w b Hwf Hin) as [v Hv].
    destruct Hwf as [Hlen Hall].
    assert (int (next + i) = next + i)%Z as Hint by (apply int_small; lia).
    assert (Z.rem (next + i) (poolLen w) = (next + i) mod poolLen w)%Z as Hrem
      by (apply Z.rem_mod_nonneg; lia).
    pose proof (Z.mod_pos_bound (next + i) (poolLen w) HN) as Hm.
    assert (GetNextPeer_scan (S fuel) (poolLen w) next i w
            = if v then Ok (Some b, pinned ((next + i) mod poolLen w) w)
              else GetNextPeer_scan fuel (poolLen w) next (i + 1) w) as Hstep.
    { simpl. unfold go_rem. rewrite Hint, Hrem.
      destruct (Z.eqb_spec (poolLen w) 0) as [|_]; [lia|].
      unfold bind at 1, ret at 1.
      rewrite (bind_Ok (index_backends _) _ w b w); last first.
      { unfold index_backends. destruct (Z.ltb_spec ((next + i) mod poolLen w) 0); [lia|].
        unfold slot in Hslot. by rewrite Hslot. }
      rewrite (bind_Ok _ _ _ _ _ (IsAlive_eq w b v Hv)).
      destruct v.
      - unfold bind, atomic_StoreUint64_current, ret, pinned.
        rewrite uint64_small by lia. done.
      - rewrite int_small by lia. done. }
    rewrite Hstep. destruct v.
    + left. exists i, b. repeat split; try done; lia.
    + destruct (IH (i + 1)%Z) as [(j & b' & Hj & Hs & Hl & Hbefore & Hrun)|[Hdown Hrun]];
        [lia..| |].
      * left. exists j, b'. repeat split; try done; try lia.
        intros j' Hj'. destruct (decide (j' = i)) as [->|]; [by exists b|].
        apply Hbefore. lia.
      * right. split; [|done].
        intros j' Hj'. destruct (decide (j' = i)) as [->|]; [by exists b|].
        apply Hdown. lia.
Qed.

Lemma NextIndex_eq w :
  (0 < poolLen w ≤ 2 ^ 61)%Z →
  NextIndex w = Ok (startIndex w, pinned (uint64 (current (serverPool w) + 1)) w).
Proof.
  intros HN. unfold NextIndex, len_backends, bind. fold (poolLen w).
  destruct (Z.eqb_spec (poolLen w) 0) as [|_]; [lia|].
  unfold atomic_AddUint64_current, go_rem. fold (pinned (uint64 (current (serverPool w) + 1)) w).
  rewrite (uint64_small (poolLen w)) by lia.
  destruct (Z.eqb_spec (poolLen w) 0) as [|_]; [lia|].
  pose proof (uint64_range (current (serverPool w) + 1)) as Hu.
  unfold ret. rewrite Z.rem_mod_nonneg by lia.
  pose proof (Z.mod_pos_bound (uint64 (current (serverPool w) + 1)) (poolLen w)) as Hm.
  rewrite int_small by lia. done.
Qed.

Lemma startIndex_range w : (0 < poolLen w)%Z → (0 ≤ startIndex w < poolLen w)%Z.
Proof. intros HN. unfold startIndex. by apply Z.mod_pos_bound. Qed.

Lemma GetNextPeer_empty w :
  backends (serverPool w) = [] → GetNextPeer w = Ok (None, w).
Proof. intros Hbs. unfold GetNextPeer, len_backends, bind. by rewrite Hbs. Qed.

Lemma GetNextPeer_spec (w : world) :
  pool_wf w → (0 < poolLen w)%Z →
    (∃ j b, (0 ≤ j < poolLen w)%Z ∧ slot w (startIndex w) j = Some b ∧
            liveness w b = Some true ∧
            (∀ j', (0 ≤ j' < j)%Z →
               ∃ b', slot w (startIndex w) j' = Some b' ∧ liveness w b' = Some false) ∧
            GetNextPeer w = Ok (Some b, pinned ((startIndex w + j) mod poolLen w) w))
    ∨ ((∀ j', (0 ≤ j' < poolLen w)%Z →
          ∃ b', slot w (startIndex w) j' = Some b' ∧ liveness w b' = Some false) ∧
       GetNextPeer w = Ok (None, pinned (uint64 (current (serverPool w) + 1)) w)).
Proof.
  intros Hwf HN.
  set (w1 := pinned (uint64 (current (serverPool w) + 1)) w).
  assert (GetNextPeer w
          = GetNextPeer_scan (Z.to_nat (poolLen w1)) (poolLen w1) (startIndex w) 0 w1) as ->.
  { unfold GetNextPeer. unfold bind at 1. unfold len_backends. fold (poolLen w).
    destruct (Z.eqb_spec (poolLen w) 0) as [|_]; [lia|].
    by rewrite (bind_Ok _ _ _ _ _ (NextIndex_eq w (conj HN (proj1 Hwf)))). }
  pose proof (GetNextPeer_scan_spec w1 (startIndex w)) as Hscan.
  change (poolLen w1) with (poolLen w) in *.
  destruct (Hscan Hwf (startIndex_range w HN) (Z.to_nat (poolLen w)) 0%Z)
    as [(j & b & Hj & Hs & Hl & Hbefore & Hrun)|[Hdown Hrun]]; [lia..| |].
  - left. exists j, b. by rewrite Hrun.
  - right. by rewrite Hrun.
Qed.

(** A full scan visits every index of the pool. *)
Lemma slot_covers w next b :
  (0 ≤ next < poolLen w)%Z → b ∈ backends (serverPool w) →
  ∃ j, (0 ≤ j < poolLen w)%Z ∧ slot w next j = Some b.
Proof.
  intros Hnext (k & Hk)%list_elem_of_lookup_1.
  pose proof (lookup_lt_Some _ _ _ Hk) as Hlt.
  assert (0 < poolLen w)%Z as HN by lia.
  exists ((Z.of_nat k - next) mod poolLen w)%Z. split; [by apply Z.mod_pos_bound|].
  unfold slot. rewrite Zplus_mod_idemp_r.
  replace (next + (Z.of_nat k - next))%Z with (Z.of_nat k) by lia.
  rewrite Z.mod_small by (unfold poolLen; lia).
  by rewrite Nat2Z.id.
Qed.

Lemma slot_elem_of w next j b :
  slot w next j = Some b → b ∈ backends (serverPool w).
Proof. unfold slot. apply list_elem_of_lookup_2. Qed.

(** ** Backend: the setter *)

Lemma SetAlive_eq w b o alive :
  heap w !! b = Some o →
  SetAlive b alive w
  = Ok (tt, with_event (EvSetAlive b alive) (with_heap (<[b := setAlive alive o]> (heap w)) w)).
Proof.
  intros Ho. unfold SetAlive, bind, deref, store, emit. by rewrite Ho, Ho.
Qed.

Lemma liveness_SetAlive w b o alive b' :
  heap w !! b = Some o →
  liveness (with_event (EvSetAlive b alive) (with_heap (<[b := setAlive alive o]> (heap w)) w)) b'
  = if decide (b' = b) then Some alive else liveness w b'.
Proof.
  intros Ho. unfold liveness. simpl. destruct (decide (b' = b)) as [->|Hne].
  - rewrite list_lookup_insert_eq; [done|]. by eapply lookup_lt_Some.
  - by rewrite list_lookup_insert_ne.
Qed.

Lemma pool_wf_SetAlive w b o alive :
  heap w !! b = Some o → pool_wf w →
  pool_wf (with_event (EvSetAlive b alive) (with_heap (<[b := setAlive alive o]> (heap w)) w)).
Proof.
  intros Ho [Hlen Hall]. split; [done|]. simpl.
  eapply Forall_impl; [exact Hall|]. intros b' Hb'. simpl in *.
  apply lookup_lt_is_Some. rewrite length_insert. by apply lookup_lt_is_Some.
Qed.

(** ** ServerPool: selection *)

Lemma GetNextPeer_total (w : world) :
  pool_wf w →
  ∃ r w', GetNextPeer w = Ok (r, w') ∧
    heap w' = heap w ∧ backends (serverPool w') = backends (serverPool w) ∧
    trace w' = trace w ∧ sent w' = sent w ∧ dialed w' = dialed w ∧
    (∀ b, r = Some b → b ∈ backends (serverPool w) ∧ liveness w b = Some true) ∧
    (r = None → ∀ b, b ∈ backends (serverPool w) → liveness w b = Some false).
Proof.
  intros Hwf.
  destruct (backends (serverPool w)) as [|b0 bs] eqn:Hbs.
  { exists None, w. rewrite GetNextPeer_empty by done.
    repeat split; try done. intros _ b Hb. by apply elem_of_nil in Hb. }
  assert (0 < poolLen w)%Z as HN by (unfold poolLen; rewrite Hbs; simpl; lia).
  rewrite <- Hbs.
  destruct (GetNextPeer_spec w Hwf HN) as [(j & b & Hj & Hs & Hl & _ & Hrun)|[Hdown Hrun]].
  - eexists _, _. split; [exact Hrun|]. do 5 (split; [done|]). split.
    + intros b' [= <-]. split; [by eapply slot_elem_of|done].
    + done.
  - eexists _, _. split; [exact Hrun|]. do 5 (split; [done|]). split; [done|].
    intros _ b Hb.
    destruct (slot_covers w (startIndex w) b (startIndex_range w HN) Hb) as (j & Hj & Hs).
    destruct (Hdown j Hj) as (b' & Hs' & Hl). congruence.
Qed.

(** C2. Liveness-aware selection.  On every pool (of valid pointers),
    [GetNextPeer] returns and leaves the backends as they are; a backend it
    returns is in the pool and its liveness is true; it returns none exactly
    when no backend of the pool is alive, so with at least one alive backend
    it returns a live one.  In particular, in a pool whose backends are all
    DOWN, once one backend is set alive the very next call returns it. *)
Theorem GetNextPeer_liveness_aware (w : world) :
  pool_wf w →
  (∃ r w', GetNextPeer w = Ok (r, w') ∧
     heap w' = heap w ∧ backends (serverPool w') = backends (serverPool w) ∧
     (∀ b, r = Some b → b ∈ backends (serverPool w) ∧ liveness w b = Some true) ∧
     (r = None ↔ ∀ b, b ∈ backends (serverPool w) → liveness w b ≠ Some true) ∧
     ((∃ b, b ∈ backends (serverPool w) ∧ liveness w b = Some true) →
      ∃ b, r = Some b ∧ liveness w b = Some true))
  ∧ (∀ b, b ∈ backends (serverPool w) →
       (∀ b', b' ∈ backends (serverPool w) → liveness w b' = Some false) →
       ∃ w1 w2, SetAlive b true w = Ok (tt, w1) ∧ GetNextPeer w1 = Ok (Some b, w2)).
Proof.
  intros Hwf. split.
  - destruct (GetNextPeer_total w Hwf) as (r & w' & Hrun & Hh & Hb & _ & _ & _ & Hsome & Hnone).
    exists r, w'. do 4 (split; [done|]). split; [split|].
    + intros -> b Hin. rewrite (Hnone eq_refl b Hin). done.
    + intros Hall. destruct r as [b|]; [|done].
      destruct (Hsome b eq_refl) as [Hin Hl]. by destruct (Hall b Hin).
    + intros (b & Hin & Hl). destruct r as [b'|].
      * exists b'. split; [done|]. by apply Hsome.
      * rewrite (Hnone eq_refl b Hin) in Hl. done.
  - intros b Hin Hdown.
    pose proof (Hdown b Hin) as (o & Ho & _)%liveness_Some.
    set (w1 := with_event (EvSetAlive b true)
                 (with_heap (<[b := setAlive true o]> (heap w)) w)).
    destruct (GetNextPeer_total w1 (pool_wf_SetAlive w b o true Ho Hwf))
      as (r & w2 & Hrun & _ & _ & _ & _ & _ & Hsome & Hnone).
    exists w1, w2. split; [by apply SetAlive_eq|].
    rewrite Hrun. destruct r as [b'|].
    + destruct (Hsome b' eq_refl) as [Hin' Hl]. unfold w1 in Hl.
      rewrite liveness_SetAlive in Hl by done.
      destruct (decide (b' = b)) as [->|_]; [done|].
      change (backends (serverPool w1)) with (backends (serverPool w)) in Hin'.
      rewrite (Hdown b' Hin') in Hl. done.
    + pose proof (Hnone eq_refl b Hin) as Hl. unfold w1 in Hl.
      rewrite liveness_SetAlive in Hl by done.
      destruct (decide (b = b)); done.
Qed.

(** C8. Empty-pool selection safety.  On a pool without backends
    [GetNextPeer] returns none and changes nothing, however often it is
    called: it is a total function, and it does not abort.  [NextIndex]
    returns 0 there without reaching its modulo, whose zero divisor would
    abort with [DivideByZero]. *)
Theorem GetNextPeer_empty_pool (w : world) :
  backends (serverPool w) = [] →
  GetNextPeer w = Ok (None, w) ∧
  NextIndex w = Ok (0%Z, w) ∧
  ∀ n, GetNextPeer_times n w = Ok (replicate n None, w).
Proof.
  intros Hbs. split; [by apply GetNextPeer_empty|]. split.
  - unfold NextIndex, len_backends, bind. by rewrite Hbs.
  - intros n. induction n as [|n IH]; [done|].
    simpl. rewrite (bind_Ok _ _ _ _ _ (GetNextPeer_empty w Hbs)).
    by rewrite (bind_Ok _ _ _ _ _ IH).
Qed.

(** ** ServerPool: round robin *)

Lemma GetNextPeer_all_alive (w : world) :
  pool_wf w → (0 < poolLen w)%Z →
  (∀ b, b ∈ backends (serverPool w) → liveness w b = Some true) →
  ∃ b, backends (serverPool w) !! Z.to_nat (startIndex w) = Some b ∧
       GetNextPeer w = Ok (Some b, pinned (startIndex w) w).
Proof.
  intros Hwf HN Hup.
  pose proof (startIndex_range w HN) as Hs.
  assert (∀ j, ¬ ∃ b', slot w (startIndex w) j = Some b' ∧ liveness w b' = Some false)
    as Hno.
  { intros j (b' & Hslot & Hl). rewrite (Hup b') in Hl by (by eapply slot_elem_of). done. }
  destruct (GetNextPeer_spec w Hwf HN) as [(j & b & Hj & Hslot & _ & Hbefore & Hrun)|[Hdown _]].
  - destruct (decide (j = 0%Z)) as [->|Hne].
    + exists b. unfold slot in Hslot.
      rewrite Z.add_0_r, Z.mod_small in Hslot, Hrun by lia. done.
    + destruct (Hno 0%Z). apply Hbefore. lia.
  - destruct (Hno 0%Z). apply Hdown. lia.
Qed.

Lemma startIndex_pinned c w :
  (0 ≤ c < poolLen w)%Z → (poolLen w ≤ 2 ^ 61)%Z →
  startIndex (pinned c w) = ((c + 1) mod poolLen w)%Z.
Proof.
  intros Hc HN. unfold startIndex. simpl. change (poolLen (pinned c w)) with (poolLen w).
  rewrite uint64_small by lia. done.
Qed.

Lemma GetNextPeer_times_all_alive (n : nat) :
  ∀ w : world,
  pool_wf w → (0 < poolLen w)%Z →
  (∀ b, b ∈ backends (serverPool w) → liveness w b = Some true) →
  GetNextPeer_times n w
  = Ok ((λ j : nat, backends (serverPool w)
                      !! Z.to_nat ((startIndex w + Z.of_nat j) mod poolLen w)) <$> seq 0 n,
        match n with
        | O => w
        | S n' => pinned ((startIndex w + Z.of_nat n') mod poolLen w) w
        end).
Proof.
  induction n as [|n IH]; intros w Hwf HN Hup; [done|].
  pose proof (startIndex_range w HN) as Hs.
  destruct (GetNextPeer_all_alive w Hwf HN Hup) as (b & Hb & Hrun).
  cbn [GetNextPeer_times]. rewrite (bind_Ok _ _ _ _ _ Hrun).
  set (w1 := pinned (startIndex w) w).
  assert (startIndex w1 = ((startIndex w + 1) mod poolLen w)%Z) as Hs1
    by (apply startIndex_pinned; [done | apply Hwf]).
  rewrite (bind_Ok _ _ _ _ _ (IH w1 Hwf HN Hup)). unfold ret.
  change (poolLen w1) with (poolLen w).
  change (backends (serverPool w1)) with (backends (serverPool w)).
  rewrite Hs1. f_equal. f_equal.
  - cbn [seq fmap list_fmap]. f_equal.
    + rewrite Z.add_0_r, Z.mod_small by lia. done.
    + rewrite <- fmap_S_seq, <- list_fmap_compose. apply list_fmap_ext.
      intros _ j _. simpl. rewrite Zplus_mod_idemp_l. do 3 f_equal. lia.
  - destruct n as [|n]; unfold w1, pinned; simpl.
    + rewrite Z.add_0_r, Z.mod_small by lia. done.
    + rewrite Zplus_mod_idemp_l.
      by replace (startIndex w + 1 + Z.of_nat n)%Z with (startIndex w + Z.of_nat (S n))%Z by lia.
Qed.

Lemma rotate_Permutation {A} (k : nat) (l : list A) : rotate k l ≡ₚ l.
Proof. unfold rotate. by rewrite Permutation_app_comm, take_drop. Qed.

(** C3. Round-robin exactness with cursor pinning.  In a pool of [N >= 1]
    backends that are all alive, a call of [GetNextPeer] returns the backend
    at the start index and pins the cursor to that index, so that the next
    call starts at the index right after it; the call number [j] (from 0)
    of any run of consecutive calls returns the backend at index
    [(k + j) mod N], and [N] consecutive calls return the pool rotated by
    [k]: each backend exactly once, in the cyclic order of the pool. *)
Theorem GetNextPeer_round_robin (w : world) :
  pool_wf w → (1 ≤ poolLen w)%Z →
  (∀ b, b ∈ backends (serverPool w) → liveness w b = Some true) →
  let bs := backends (serverPool w) in
  let k := Z.to_nat (startIndex w) in
  (∃ b, bs !! k = Some b ∧ GetNextPeer w = Ok (Some b, pinned (Z.of_nat k) w)) ∧
  (∀ c, (0 ≤ c < poolLen w)%Z → startIndex (pinned c w) = ((c + 1) mod poolLen w)%Z) ∧
  (∀ n, ∃ w', GetNextPeer_times n w
              = Ok ((λ j, bs !! ((k + j) `mod` length bs)%nat) <$> seq 0 n, w')) ∧
  (∃ w', GetNextPeer_times (length bs) w = Ok (Some <$> rotate k bs, w') ∧
         rotate k bs ≡ₚ bs ∧
         heap w' = heap w ∧ backends (serverPool w') = bs).
Proof.
  intros Hwf HN Hup bs k.
  assert (0 < poolLen w)%Z as HN' by lia.
  pose proof (startIndex_range w HN') as Hs.
  assert (∀ j : nat, Z.to_nat ((startIndex w + Z.of_nat j) mod poolLen w)
                     = ((k + j) `mod` length bs)%nat) as Hidx.
  { intros j. unfold k, poolLen. fold bs.
    rewrite <- (Z2Nat.id (startIndex w)) at 1 by lia.
    rewrite <- Nat2Z.inj_add, <- Nat2Z.inj_mod. apply Nat2Z.id. }
  split; [|split; [|split]].
  - destruct (GetNextPeer_all_alive w Hwf HN' Hup) as (b & Hb & Hrun).
    exists b. unfold k. rewrite Z2Nat.id by lia. done.
  - intros c Hc. apply startIndex_pinned; [done | apply Hwf].
  - intros n. eexists. rewrite (GetNextPeer_times_all_alive n w Hwf HN' Hup).
    f_equal. f_equal. apply list_fmap_ext. intros _ j _. simpl. by rewrite Hidx.
  - eexists. rewrite (GetNextPeer_times_all_alive (length bs) w Hwf HN' Hup).
    split; [f_equal; f_equal|split; [apply rotate_Permutation|]].
    + apply list_eq. intros i. rewrite !list_lookup_fmap.
      destruct (decide (i < length bs)%nat) as [Hi|Hi].
      * rewrite lookup_seq_lt by done. rewrite lookup_rotate_r by done. simpl.
        rewrite Hidx. unfold rotate_nat_add.
        rewrite <- Nat2Z.inj_add, <- Nat2Z.inj_mod, Nat2Z.id.
        change (backends (serverPool w)) with bs.
        destruct (lookup_lt_is_Some_2 bs ((k + i) `mod` length bs)) as [b ->]; [|done].
        apply Nat.mod_upper_bound. lia.
      * rewrite lookup_seq_ge by lia. rewrite lookup_ge_None_2; [done|].
        rewrite length_rotate. lia.
    + destruct (length bs); done.
Qed.

(** ** Backend: marking DOWN twice *)

Lemma setAlive_id o : setAlive (Alive o) o = o.
Proof. by destruct o. Qed.

(** C9. Idempotent passive marking.  [SetAlive(false)] on a backend whose
    liveness is already false returns normally and leaves every Backend
    object, that backend included, and the pool as they were: the backend
    keeps its URL, its proxy and its liveness false.  The world differs
    only by the record of the write in the trace, and the call can be
    repeated with the same outcome. *)
Theorem SetAlive_false_idempotent (w : world) (b : ptr) (o : Backend) :
  heap w !! b = Some o → Alive o = false →
  ∃ w', SetAlive b false w = Ok (tt, w') ∧
        heap w' = heap w ∧ heap w' !! b = Some o ∧ liveness w' b = Some false ∧
        serverPool w' = serverPool w ∧
        w' = with_event (EvSetAlive b false) w ∧
        ∃ w'', SetAlive b false w' = Ok (tt, w'') ∧ heap w'' = heap w.
Proof.
  intros Ho Hdown.
  assert (<[b := setAlive false o]> (heap w) = heap w) as Hid.
  { rewrite <- Hdown, setAlive_id. by apply list_insert_id. }
  assert (∀ v : world, heap v = heap w →
            SetAlive b false v = Ok (tt, with_event (EvSetAlive b false) v)) as Hrun.
  { intros v Hv. rewrite (SetAlive_eq v b o) by (by rewrite Hv).
    rewrite Hv, Hid, <- Hv. by destruct v. }
  eexists. split; [by apply Hrun|].
  split; [done|]. split; [done|]. split; [by apply liveness_Some; exists o|].
  split; [done|]. split; [done|].
  eexists. split; [by apply Hrun|]. done.
Qed.

(** ** HealthChecker *)

Lemma isBackendAlive_total dial u w :
  ∃ addr, isBackendAlive dial u w
          = Ok (dial (dialed w) addr,
                {| heap := heap w; serverPool := serverPool w;
                   trace := trace w ++ [EvDial addr];
                   dialed := S (dialed w); sent := sent w |}).
Proof.
  unfold isBackendAlive, bind, net_DialTimeout, ret.
  match goal with |- context [EvDial ?a] => exists a; by destruct (dial (dialed w) a) end.
Qed.

Lemma checkHealth_body_eq dial w b o :
  heap w !! b = Some o →
  ∃ addr,
    let alive := dial (dialed w) addr in
    let w1 := {| heap := heap w; serverPool := serverPool w;
                 trace := trace w ++ [EvDial addr];
                 dialed := S (dialed w); sent := sent w |} in
    isBackendAlive dial (URL o) w = Ok (alive, w1) ∧
    checkHealth_body dial b w
    = Ok (tt,
          if Bool.eqb alive (Alive o) then w1
          else with_event (EvSetAlive b alive)
                 (with_heap (<[b := setAlive alive o]> (heap w))
                    (with_event
                       (EvLog (if alive then LogRecovered (url_String (URL o))
                               else LogFailedHealthCheck (url_String (URL o)))) w1))).
Proof.
  intros Ho.
  destruct (isBackendAlive_total dial (URL o) w) as [addr Hprobe].
  exists addr. intros alive w1. split; [done|].
  assert (IsAlive b w1 = Ok (Alive o, w1)) as Hwas
    by (apply IsAlive_eq, liveness_Some; by exists o).
  unfold checkHealth_body. unfold bind at 1, deref. rewrite Ho.
  rewrite (bind_Ok _ _ _ _ _ Hprobe), (bind_Ok _ _ _ _ _ Hwas).
  change (dial (dialed w) addr) with alive.
  destruct (Bool.eqb alive (Alive o)); [done|]. cbn [negb].
  destruct alive; unfold bind at 1, emit; by rewrite (SetAlive_eq _ b o).
Qed.

(** A pass returns, whatever the probes find: unreachability is a liveness
    write, never an abort. *)
Lemma checkHealth_range_total dial (bs : list ptr) :
  ∀ w, Forall (λ b, is_Some (heap w !! b)) bs →
  ∃ w', for_range bs (checkHealth_body dial) w = Ok (tt, w') ∧
        serverPool w' = serverPool w ∧ length (heap w') = length (heap w) ∧
        sent w' = sent w.
Proof.
  induction bs as [|b bs IH]; intros w Hall.
  - by exists w.
  - apply Forall_cons in Hall as [[o Ho] Hall].
    destruct (checkHealth_body_eq dial w b o Ho) as (addr & _ & Hbody).
    cbn [for_range]. rewrite (bind_Ok _ _ _ _ _ Hbody).
    match goal with |- context [for_range bs _ ?v] => set (w1 := v) end.
    assert (serverPool w1 = serverPool w ∧ length (heap w1) = length (heap w) ∧
            sent w1 = sent w) as (Hp & Hl & Hs).
    { unfold w1. destruct (Bool.eqb _ _); simpl; [done|]. by rewrite length_insert. }
    destruct (IH w1) as (w' & Hrun & Hp' & Hl' & Hs').
    { eapply Forall_impl; [exact Hall|]. intros b' Hb'. simpl in Hb'.
      apply lookup_lt_is_Some. rewrite Hl. by apply lookup_lt_is_Some. }
    exists w'. split; [done|]. by rewrite Hp', Hl', Hs'.
Qed.

Lemma isBackendAlive_eq dial u w :
  isBackendAlive dial u w
  = Ok (dial (dialed w) (dialAddress u),
        {| heap := heap w; serverPool := serverPool w;
           trace := trace w ++ [EvDial (dialAddress u)];
           dialed := S (dialed w); sent := sent w |}).
Proof.
  unfold isBackendAlive, bind, net_DialTimeout, ret. fold (dialAddress u).
  by destruct (dial (dialed w) (dialAddress u)).
Qed.

Lemma setAlive_setAlive a a' o : setAlive a (setAlive a' o) = setAlive a o.
Proof. done. Qed.

Lemma checkHealth_body_at dial w b o :
  heap w !! b = Some o →
  checkHealth_body dial b w
  = Ok (tt,
        {| heap := <[b := setAlive (dial (dialed w) (dialAddress (URL o))) o]> (heap w);
           serverPool := serverPool w;
           trace := trace w ++ EvDial (dialAddress (URL o)) ::
                      (if Bool.eqb (dial (dialed w) (dialAddress (URL o))) (Alive o) then []
                       else [EvLog (if dial (dialed w) (dialAddress (URL o))
                                    then LogRecovered (url_String (URL o))
                                    else LogFailedHealthCheck (url_String (URL o)));
                             EvSetAlive b (dial (dialed w) (dialAddress (URL o)))]);
           dialed := S (dialed w); sent := sent w |}).
Proof.
  intros Ho. set (alive := dial (dialed w) (dialAddress (URL o))).
  set (w1 := {| heap := heap w; serverPool := serverPool w;
                trace := trace w ++ [EvDial (dialAddress (URL o))];
                dialed := S (dialed w); sent := sent w |}).
  assert (IsAlive b w1 = Ok (Alive o, w1)) as Hwas
    by (apply IsAlive_eq, liveness_Some; by exists o).
  unfold checkHealth_body. unfold bind at 1, deref. rewrite Ho.
  rewrite (bind_Ok _ _ _ _ _ (isBackendAlive_eq dial (URL o) w)). fold alive w1.
  rewrite (bind_Ok _ _ _ _ _ Hwas).
  destruct (Bool.eqb_spec alive (Alive o)) as [Heq|Hne]; cbn [negb].
  - unfold ret, w1. rewrite Heq, setAlive_id, list_insert_id by done. done.
  - destruct alive; unfold bind at 1, emit; rewrite (SetAlive_eq _ b o) by done;
      unfold with_event, with_heap, w1; simpl; by rewrite <- !app_assoc.
Qed.

(** The worlds of a pass, one by one: [ws] lists the world before each
    round of the loop and the world after the last.  Round [k] probes
    backend [k] of the snapshot with the dial numbered [k] of the pass,
    compares with the liveness that backend has in the world of that round
    (its liveness at the start of the pass, unless an earlier round of the
    same pass wrote it), and writes only on a difference. *)
Lemma checkHealth_range_steps dial (bs : list ptr) :
  ∀ v, Forall (λ b, is_Some (heap v !! b)) bs →
  ∃ ws v', for_range bs (checkHealth_body dial) v = Ok (tt, v') ∧
    length ws = S (length bs) ∧ ws !! 0%nat = Some v ∧ ws !! length bs = Some v' ∧
    ∀ (k : nat) (b : ptr), bs !! k = Some b →
      ∃ u u' o added,
        ws !! k = Some u ∧ ws !! S k = Some u' ∧ heap u !! b = Some o ∧
        dialed u = (dialed v + k)%nat ∧
        (b ∉ take k bs → heap u !! b = heap v !! b) ∧
        trace u' = trace u ++ EvDial (dialAddress (URL o)) :: added ∧
        dialed u' = S (dialed u) ∧ sent u' = sent u ∧ serverPool u' = serverPool u ∧
        (dial (dialed u) (dialAddress (URL o)) ≠ Alive o →
           added = [EvLog (if dial (dialed u) (dialAddress (URL o))
                           then LogRecovered (url_String (URL o))
                           else LogFailedHealthCheck (url_String (URL o)));
                    EvSetAlive b (dial (dialed u) (dialAddress (URL o)))] ∧
           heap u' = <[b := setAlive (dial (dialed u) (dialAddress (URL o))) o]> (heap u)) ∧
        (dial (dialed u) (dialAddress (URL o)) = Alive o →
           added = [] ∧ heap u' = heap u).
Proof.
  induction bs as [|b0 bs IH]; intros v Hall.
  - exists [v], v. do 4 (split; [done|]). intros k b Hk. by destruct k.
  - apply Forall_cons in Hall as [[o0 Ho0] Hall].
    pose proof (checkHealth_body_at dial v b0 o0 Ho0) as Hbody.
    cbn [for_range]. rewrite (bind_Ok _ _ _ _ _ Hbody).
    match goal with |- context [for_range bs _ ?x] => set (v1 := x) in * end.
    destruct (IH v1) as (ws & v' & Hrun & Hlen & Hhd & Hlast & Hsteps).
    { eapply Forall_impl; [exact Hall|]. intros b' Hb'. simpl in Hb'.
      apply lookup_lt_is_Some. unfold v1. simpl. rewrite length_insert.
      by apply lookup_lt_is_Some. }
    exists (v :: ws), v'. split; [done|]. split; [by simpl; rewrite Hlen|].
    split; [done|]. split; [done|].
    intros [|k] b Hk.
    + injection Hk as <-.
      exists v, v1, o0,
        (if Bool.eqb (dial (dialed v) (dialAddress (URL o0))) (Alive o0) then []
         else [EvLog (if dial (dialed v) (dialAddress (URL o0))
                      then LogRecovered (url_String (URL o0))
                      else LogFailedHealthCheck (url_String (URL o0)));
               EvSetAlive b0 (dial (dialed v) (dialAddress (URL o0)))]).
      split; [done|]. split; [done|]. split; [done|]. split; [lia|].
      split; [done|]. split; [done|]. split; [done|]. split; [done|]. split; [done|].
      destruct (Bool.eqb_spec (dial (dialed v) (dialAddress (URL o0))) (Alive o0))
        as [Heq|Hne]; split; try done.
      intros _. split; [done|]. unfold v1. simpl.
      by rewrite Heq, setAlive_id, list_insert_id.
    + destruct (Hsteps k b Hk)
        as (u & u' & o & added & Hu & Hu' & Ho & Hd & Hsame & Hrest).
      exists u, u', o, added. split; [done|]. split; [done|]. split; [done|].
      split; [rewrite Hd; unfold v1; simpl; lia|]. split; [|done].
      intros Hnot. cbn [take] in Hnot. apply not_elem_of_cons in Hnot as [Hne Hnot].
      rewrite (Hsame Hnot). unfold v1. simpl. by apply list_lookup_insert_ne.
Qed.

(** C5. Health-check transition detection.  A pass of the health checker
    runs its body once for each backend of the snapshot, in order, and
    returns.  The worlds of the pass form a chain [ws] from the world the
    pass starts in to the world it ends in; round [k] takes world [k] to
    world [k+1], probes backend [k] of the snapshot, and: if the probe
    result differs from the liveness the backend has at that moment (which
    is its liveness at the start of the pass unless the snapshot lists the
    backend earlier too), it logs the transition ("recovered" when the
    probe succeeded, "failed health check" otherwise) and writes the probe
    result as the new liveness of that backend alone; if they agree it
    writes nothing and logs nothing.  The same holds of the loop body run
    on any backend in any world. *)
Theorem checkHealth_transition (dial : nat → string → bool) (w : world) :
  pool_wf w →
  (checkHealth dial w = for_range (backends (serverPool w)) (checkHealth_body dial) w ∧
   ∃ w' ws,
     checkHealth dial w = Ok (tt, w') ∧ serverPool w' = serverPool w ∧
     length ws = S (length (backends (serverPool w))) ∧
     ws !! 0%nat = Some w ∧ ws !! length (backends (serverPool w)) = Some w' ∧
     ∀ (k : nat) (b : ptr), backends (serverPool w) !! k = Some b →
       ∃ u u' o added,
         ws !! k = Some u ∧ ws !! S k = Some u' ∧ heap u !! b = Some o ∧
         dialed u = (dialed w + k)%nat ∧
         (b ∉ take k (backends (serverPool w)) → heap u !! b = heap w !! b) ∧
         trace u' = trace u ++ EvDial (dialAddress (URL o)) :: added ∧
         (dial (dialed u) (dialAddress (URL o)) ≠ Alive o →
            added = [EvLog (if dial (dialed u) (dialAddress (URL o))
                            then LogRecovered (url_String (URL o))
                            else LogFailedHealthCheck (url_String (URL o)));
                     EvSetAlive b (dial (dialed u) (dialAddress (URL o)))] ∧
            heap u' = <[b := setAlive (dial (dialed u) (dialAddress (URL o))) o]> (heap u) ∧
            liveness u' b = Some (dial (dialed u) (dialAddress (URL o)))) ∧
         (dial (dialed u) (dialAddress (URL o)) = Alive o →
            added = [] ∧ heap u' = heap u))
  ∧ ∀ (v : world) (b : ptr) (o : Backend),
      heap v !! b = Some o →
      ∃ addr alive v1 v' added,
        alive = dial (dialed v) addr ∧
        isBackendAlive dial (URL o) v = Ok (alive, v1) ∧
        heap v1 = heap v ∧ trace v1 = trace v ++ [EvDial addr] ∧
        checkHealth_body dial b v = Ok (tt, v') ∧
        trace v' = trace v1 ++ added ∧
        (alive ≠ Alive o →
           added = [EvLog (if alive then LogRecovered (url_String (URL o))
                           else LogFailedHealthCheck (url_String (URL o)));
                    EvSetAlive b alive] ∧
           heap v' = <[b := setAlive alive o]> (heap v) ∧
           liveness v' b = Some alive) ∧
        (alive = Alive o → added = [] ∧ v' = v1).
Proof.
  intros Hwf. split.
  - split; [done|].
    destruct (checkHealth_range_steps dial (backends (serverPool w)) w (proj2 Hwf))
      as (ws & w' & Hrun & Hlen & Hhd & Hlast & Hsteps).
    destruct (checkHealth_range_total dial (backends (serverPool w)) w (proj2 Hwf))
      as (w'' & Hrun' & Hp & _).
    assert (w'' = w') as -> by congruence.
    exists w', ws. do 5 (split; [done|]).
    intros k b Hk.
    destruct (Hsteps k b Hk)
      as (u & u' & o & added & Hu & Hu' & Ho & Hd & Hsame & Htr & _ & _ & _ & Hne & Heq).
    exists u, u', o, added. do 4 (split; [done|]).
    split; [done|]. split; [done|]. split; [|done].
    intros Hdiff. destruct (Hne Hdiff) as [-> Hheap]. split; [done|]. split; [done|].
    unfold liveness. rewrite Hheap, list_lookup_insert_eq; [done|].
    by eapply lookup_lt_Some.
  - intros v b o Ho.
    destruct (checkHealth_body_eq dial v b o Ho) as (addr & Hprobe & Hbody).
    set (alive := dial (dialed v) addr) in *.
    set (v1 := {| heap := heap v; serverPool := serverPool v;
                  trace := trace v ++ [EvDial addr];
                  dialed := S (dialed v); sent := sent v |}) in *.
    set (note := EvLog (if alive then LogRecovered (url_String (URL o))
                        else LogFailedHealthCheck (url_String (URL o)))) in *.
    destruct (Bool.eqb_spec alive (Alive o)) as [Heq|Hne].
    + exists addr, alive, v1, v1, [].
      do 5 (split; [done|]). split; [by rewrite app_nil_r|]. done.
    + eexists addr, alive, v1, _, [note; EvSetAlive b alive].
      do 4 (split; [done|]). split; [exact Hbody|].
      split; [simpl; by rewrite <- app_assoc|]. split; [|done].
      intros _. split; [done|]. split; [done|].
      unfold liveness. simpl. rewrite list_lookup_insert_eq; [done|].
      by eapply lookup_lt_Some.
Qed.

(** ** NewBackend and the start-up loop *)

Lemma NewBackend_eq url_Parse urlStr u w :
  url_Parse urlStr = inl u →
  NewBackend url_Parse urlStr w
  = Ok (inl (length (heap w)),
        with_event (EvLog (LogCreated (url_String u)))
          (with_heap (heap w ++ [newBackend u (length (heap w))]) w)).
Proof.
  intros Hu. unfold NewBackend. rewrite Hu.
  unfold bind, alloc, deref, store, emit, ret. simpl.
  repeat (rewrite list_lookup_middle by done; simpl).
  rewrite insert_app_r_alt, Nat.sub_diag by done. done.
Qed.

Lemma liveness_app_l w b extra (w' : world) :
  heap w' = heap w ++ extra → is_Some (liveness w b) → liveness w' b = liveness w b.
Proof.
  intros Hh [v Hv]. unfold liveness in *. rewrite Hh.
  destruct (heap w !! b) as [o|] eqn:Ho; [|done].
  by rewrite (lookup_app_l_Some _ _ _ _ Ho).
Qed.

(** One round of the start-up loop. *)
Lemma main_addBackends_step url_Parse urlStr u w :
  url_Parse urlStr = inl u →
  (r <- NewBackend url_Parse urlStr ;;
   match r with
   | inr err => raise (Fatal ("Failed to create backend for " +:+ urlStr +:+ ": " +:+ err))
   | inl backend => AddBackend backend ;; emit (EvLog (LogAdded urlStr))
   end) w
  = Ok (tt,
        {| heap := heap w ++ [newBackend u (length (heap w))];
           serverPool := {| backends := backends (serverPool w) ++ [length (heap w)];
                            current := current (serverPool w) |};
           trace := (trace w ++ [EvLog (LogCreated (url_String u))])
                    ++ [EvLog (LogAdded urlStr)];
           dialed := dialed w; sent := sent w |}).
Proof.
  intros Hu. by rewrite (bind_Ok _ _ _ _ _ (NewBackend_eq url_Parse urlStr u w Hu)).
Qed.

Lemma main_addBackends_spec url_Parse (urls : list string) :
  (∀ s, s ∈ urls → ∃ u, url_Parse s = inl u) →
  ∀ w, (∀ b, b ∈ backends (serverPool w) → liveness w b = Some true) →
  ∃ w', main_addBackends url_Parse urls w = Ok (tt, w') ∧
        length (backends (serverPool w'))
        = (length (backends (serverPool w)) + length urls)%nat ∧
        dialed w' = dialed w ∧ sent w' = sent w ∧
        (∀ b, b ∈ backends (serverPool w') → liveness w' b = Some true).
Proof.
  unfold main_addBackends.
  induction urls as [|urlStr urls IH]; intros Hparse w Hup.
  - exists w. simpl. unfold ret. rewrite Nat.add_0_r. done.
  - destruct (Hparse urlStr) as [u Hu]; [by left|].
    cbn [for_range].
    rewrite (bind_Ok _ _ _ _ _ (main_addBackends_step url_Parse urlStr u w Hu)).
    set (w1 := {| heap := heap w ++ [newBackend u (length (heap w))] |}).
    destruct (IH (λ s Hs, Hparse s (list_elem_of_further _ _ _ Hs)) w1)
      as (w' & Hrun & Hlen & Hd & Hs & Hup').
    { intros b [Hb | ->%list_elem_of_singleton]%elem_of_app.
      - rewrite (liveness_app_l w b [newBackend u (length (heap w))]); [by apply Hup|done|].
        rewrite (Hup b Hb). by eexists.
      - unfold liveness. simpl. by rewrite list_lookup_middle. }
    exists w'. split; [done|]. split; [|done].
    rewrite Hlen. simpl. rewrite length_app. simpl. lia.
Qed.


Lemma main_addBackends_layout url_Parse (urls : list string) :
  (∀ s, s ∈ urls → ∃ u, url_Parse s = inl u) →
  ∀ w, ∃ w',
    main_addBackends url_Parse urls w = Ok (tt, w') ∧
    backends (serverPool w')
    = backends (serverPool w) ++ seq (length (heap w)) (length urls) ∧
    current (serverPool w') = current (serverPool w) ∧
    length (heap w') = (length (heap w) + length urls)%nat ∧
    (∀ (b : ptr) o, heap w !! b = Some o → heap w' !! b = Some o) ∧
    (∀ i s, urls !! i = Some s →
       ∃ u, url_Parse s = inl u ∧
            heap w' !! (length (heap w) + i)%nat
            = Some (newBackend u (length (heap w) + i))).
Proof.
  unfold main_addBackends.
  induction urls as [|urlStr urls IH]; intros Hparse w.
  - exists w. simpl. rewrite app_nil_r, Nat.add_0_r. done.
  - destruct (Hparse urlStr) as [u Hu]; [by left|].
    cbn [for_range].
    rewrite (bind_Ok _ _ _ _ _ (main_addBackends_step url_Parse urlStr u w Hu)).
    match goal with |- context [for_range urls _ ?x] => set (w1 := x) end.
    destruct (IH (λ s Hs, Hparse s (list_elem_of_further _ _ _ Hs)) w1)
      as (w' & Hrun & Hbs & Hc & Hlen & Hkeep & Hnew).
    assert (length (heap w1) = S (length (heap w))) as Hlen1
      by (simpl; rewrite length_app; simpl; lia).
    exists w'. split; [done|]. split; [|split; [done|split; [|split]]].
    + rewrite Hbs, Hlen1. simpl. by rewrite <- app_assoc.
    + rewrite Hlen, Hlen1. simpl. lia.
    + intros b o Ho. apply Hkeep. simpl. by apply lookup_app_l_Some.
    + intros [|i] s Hs.
      * injection Hs as <-. exists u. split; [done|]. rewrite Nat.add_0_r.
        apply Hkeep. simpl. by rewrite list_lookup_middle.
      * destruct (Hnew i s Hs) as (u' & Hu' & Hobj). exists u'. split; [done|].
        rewrite Hlen1 in Hobj. by rewrite Nat.add_succ_r.
Qed.

(** While every backend of the pool is alive, as many selections as the
    pool has entries reach every entry. *)
Lemma GetNextPeer_times_reaches (w : world) (i : nat) (b : ptr) :
  pool_wf w →
  (∀ b', b' ∈ backends (serverPool w) → liveness w b' = Some true) →
  backends (serverPool w) !! i = Some b →
  ∃ (j : nat) rs w'',
    (j < length (backends (serverPool w)))%nat ∧
    GetNextPeer_times (length (backends (serverPool w))) w = Ok (rs, w'') ∧
    rs !! j = Some (Some b).
Proof.
  intros Hwf Hup Hi.
  pose proof (lookup_lt_Some _ _ _ Hi) as Hlt.
  assert (0 < poolLen w)%Z as HN by (unfold poolLen; lia).
  pose proof (startIndex_range w HN) as Hs.
  set (j := Z.to_nat ((Z.of_nat i - startIndex w) mod poolLen w)).
  assert (0 ≤ (Z.of_nat i - startIndex w) mod poolLen w < poolLen w)%Z as Hj
    by (apply Z.mod_pos_bound; lia).
  assert (j < length (backends (serverPool w)))%nat as Hjlt
    by (unfold j, poolLen in *; lia).
  eexists j, _, _. split; [exact Hjlt|].
  split; [by apply GetNextPeer_times_all_alive|].
  rewrite list_lookup_fmap, lookup_seq_lt by done. simpl. f_equal.
  rewrite <- Hi. f_equal. unfold j. rewrite Z2Nat.id by lia.
  rewrite Z.add_mod_idemp_r by lia.
  replace (startIndex w + (Z.of_nat i - startIndex w))%Z with (Z.of_nat i) by lia.
  rewrite Z.mod_small by (unfold poolLen; lia). by rewrite Nat2Z.id.
Qed.

(** C10. Initial liveness is UP.  When the URL parses, [NewBackend] returns
    a new Backend object whose liveness is true, without any probe or
    exchange having run; when it does not parse, no backend is made.  So
    after the start-up loop of [main] over URLs that parse, the pool holds
    one backend per URL and no backend twice: entry [i] of the pool is the
    object [NewBackend] made from URL [i], alive; every backend of the pool
    is alive, and (unless the list is empty) the first selection returns a
    live backend; as many selections as there are URLs return every
    configured backend. *)
Theorem NewBackend_initially_alive (url_Parse : string → url_URL + string) :
  (∀ urlStr u w, url_Parse urlStr = inl u →
     ∃ b w', NewBackend url_Parse urlStr w = Ok (inl b, w') ∧
             heap w !! b = None ∧ heap w' !! b = Some (newBackend u b) ∧
             liveness w' b = Some true ∧ IsAlive b w' = Ok (true, w') ∧
             dialed w' = dialed w ∧ sent w' = sent w)
  ∧ (∀ urlStr err w, url_Parse urlStr = inr err →
       NewBackend url_Parse urlStr w = Ok (inr err, w))
  ∧ (∀ urls, (∀ s, s ∈ urls → ∃ u, url_Parse s = inl u) →
       (Z.of_nat (length urls) ≤ 2 ^ 61)%Z →
       ∃ w', main_addBackends url_Parse urls world0 = Ok (tt, w') ∧
             length (backends (serverPool w')) = length urls ∧
             dialed w' = 0%nat ∧ sent w' = 0%nat ∧
             (∀ b, b ∈ backends (serverPool w') → liveness w' b = Some true) ∧
             NoDup (backends (serverPool w')) ∧
             (∀ i s, urls !! i = Some s →
                ∃ u (b : ptr), url_Parse s = inl u ∧
                               backends (serverPool w') !! i = Some b ∧
                               heap w' !! b = Some (newBackend u b) ∧
                               liveness w' b = Some true) ∧
             (urls ≠ [] → ∃ b w'', GetNextPeer w' = Ok (Some b, w'') ∧
                                   liveness w' b = Some true) ∧
             (∀ i (b : ptr), backends (serverPool w') !! i = Some b →
                ∃ (j : nat) rs w'',
                  (j < length urls)%nat ∧
                  GetNextPeer_times (length urls) w' = Ok (rs, w'') ∧
                  rs !! j = Some (Some b))).
Proof.
  split; [|split].
  - intros urlStr u w Hu. eexists _, _. split; [by apply NewBackend_eq|].
    assert (liveness (with_event (EvLog (LogCreated (url_String u)))
                        (with_heap (heap w ++ [newBackend u (length (heap w))]) w))
              (length (heap w)) = Some true) as Hl.
    { unfold liveness. simpl. by rewrite list_lookup_middle. }
    split; [by apply lookup_ge_None_2|]. split; [simpl; by rewrite list_lookup_middle|].
    split; [done|]. split; [by apply IsAlive_eq|done].
  - intros urlStr err w Herr. unfold NewBackend. by rewrite Herr.
  - intros urls Hparse Hlen.
    destruct (main_addBackends_spec url_Parse urls Hparse world0)
      as (w' & Hrun & Hn & Hd & Hs & Hup).
    { intros b Hb. by apply elem_of_nil in Hb. }
    destruct (main_addBackends_layout url_Parse urls Hparse world0)
      as (w2 & Hrun2 & Hpool & _ & _ & _ & Hnew).
    assert (w2 = w') as -> by congruence. simpl in Hpool, Hnew.
    exists w'. split; [done|]. split; [done|]. split; [done|]. split; [done|].
    split; [done|]. split; [rewrite Hpool; apply NoDup_seq|]. split.
    { intros i s Hi. destruct (Hnew i s Hi) as (u & Hu & Hobj).
      exists u, i. split; [done|]. split.
      - rewrite Hpool. apply lookup_seq. split; [done|]. by eapply lookup_lt_Some.
      - split; [done|]. apply liveness_Some. by exists (newBackend u i). }
    assert (pool_wf w') as Hwf.
    { split; [unfold poolLen; rewrite Hn; simpl; lia|].
      apply Forall_forall. intros b Hb.
      destruct (proj1 (liveness_Some _ _ _) (Hup b Hb)) as (o & Ho & _). by exists o. }
    split; [|intros i b Hi; simpl in Hn; rewrite <- Hn;
             by apply (GetNextPeer_times_reaches w' i b)].
    intros Hne.
    destruct (GetNextPeer_total w' Hwf) as (r & w'' & Hnext & _ & _ & _ & _ & _ & Hsome & Hnone).
    destruct r as [b|].
    + exists b, w''. split; [done|]. by apply Hsome.
    + destruct (backends (serverPool w')) as [|b bs] eqn:Hbs.
      * destruct urls; [done|]. simpl in Hn. lia.
      * specialize (Hnone eq_refl b (list_elem_of_here _ _)).
        rewrite (Hup b) in Hnone by (by left). done.
Qed.

(** ** AddBackend *)

Lemma NoDup_repeated_head (e : option string) (l : list (option string)) :
  ¬ NoDup (e :: e :: l).
Proof. intros H. apply NoDup_cons in H as [Hnotin _]. apply Hnotin. by left. Qed.

(** C4 (as stated) fails: registering the same endpoint twice leaves two
    backends with equal endpoint URLs in the pool. *)
Lemma AddBackend_duplicate_counterexample :
  main_addBackends sample_Parse duplicateURLs world0 = Ok (tt, started duplicateURLs) ∧
  backends (serverPool (started duplicateURLs)) = [0; 1]%nat ∧
  endpoints (started duplicateURLs)
  = [Some "http://localhost:8081"; Some "http://localhost:8081"] ∧
  ¬ NoDup (endpoints (started duplicateURLs)).
Proof.
  assert (endpoints (started duplicateURLs)
          = [Some "http://localhost:8081"; Some "http://localhost:8081"]) as Hends
    by (vm_compute; reflexivity).
  split; [vm_compute; reflexivity|]. split; [vm_compute; reflexivity|].
  split; [exact Hends|].
  rewrite Hends. apply NoDup_repeated_head.
Qed.

(** C4 (amended). [AddBackend] appends unconditionally: after any sequence
    of adds the pool is the old pool followed by the added backends in the
    order added, duplicates included; its size grows by the number of
    adds, and nothing else changes. *)
Theorem AddBackend_appends (bs : list ptr) (w : world) :
  ∃ w', for_range bs AddBackend w = Ok (tt, w') ∧
        backends (serverPool w') = backends (serverPool w) ++ bs ∧
        current (serverPool w') = current (serverPool w) ∧
        heap w' = heap w ∧ trace w' = trace w ∧
        GetPoolSize w' = Ok ((poolLen w + Z.of_nat (length bs))%Z, w').
Proof.
  revert w. induction bs as [|b bs IH]; intros w.
  - exists w. split; [done|]. rewrite app_nil_r. do 4 (split; [done|]).
    unfold GetPoolSize, len_backends, poolLen. simpl. by rewrite Z.add_0_r.
  - destruct (IH (with_pool {| backends := backends (serverPool w) ++ [b];
                               current := current (serverPool w) |} w))
      as (w' & Hrun & Hbs & Hc & Hh & Ht & Hsize).
    exists w'. split; [done|]. simpl in Hbs. rewrite <- app_assoc in Hbs.
    do 4 (split; [done|]).
    rewrite Hsize. f_equal. f_equal. unfold poolLen. simpl.
    rewrite length_app. simpl. lia.
Qed.

(** ** The passive transport and the proxy *)

Lemma RoundTrip_5xx_eq exchange t req w o resp :
  heap w !! backend t = Some o →
  exchange (sent w) req.1 req.2 = inl resp →
  (500 ≤ StatusCode resp)%Z →
  RoundTrip exchange t req w
  = Ok (inl resp,
        {| heap := <[backend t := setAlive false o]> (heap w);
           serverPool := serverPool w;
           trace := trace w ++ [EvSend req.1 req.2;
                                EvLog (LogPassive5xx (url_String (URL o)) (StatusCode resp));
                                EvSetAlive (backend t) false];
           dialed := dialed w; sent := S (sent w) |}).
Proof.
  intros Ho Hex H5. unfold RoundTrip. unfold bind at 1, transport_RoundTrip.
  rewrite Hex. destruct (Z.leb_spec 500 (StatusCode resp)) as [_|]; [|lia].
  unfold bind at 1. unfold bind at 1, deref. simpl. rewrite Ho.
  unfold bind at 1, emit.
  rewrite (SetAlive_eq _ (backend t) o) by done.
  unfold ret, with_event, with_heap. simpl. by rewrite <- !app_assoc.
Qed.

Lemma RoundTrip_error_eq exchange t req w o err :
  heap w !! backend t = Some o → Alive o = true →
  exchange (sent w) req.1 req.2 = inr err →
  RoundTrip exchange t req w
  = Ok (inr err,
        {| heap := <[backend t := setAlive false o]> (heap w);
           serverPool := serverPool w;
           trace := trace w ++ [EvSend req.1 req.2;
                                EvLog (LogPassiveFailed (url_String (URL o)) err);
                                EvSetAlive (backend t) false];
           dialed := dialed w; sent := S (sent w) |}).
Proof.
  intros Ho Hup Hex. unfold RoundTrip. unfold bind at 1, transport_RoundTrip.
  rewrite Hex.
  set (w1 := {| heap := heap w; serverPool := serverPool w;
                trace := trace w ++ [EvSend req.1 req.2];
                dialed := dialed w; sent := S (sent w) |}).
  assert (IsAlive (backend t) w1 = Ok (true, w1)) as Hlive
    by (apply IsAlive_eq, liveness_Some; by exists o).
  unfold bind at 1. rewrite Hlive.
  unfold bind at 1. unfold bind at 1, deref. change (heap w1) with (heap w). rewrite Ho.
  unfold bind at 1, emit.
  rewrite (SetAlive_eq _ (backend t) o) by done.
  unfold ret, with_event, with_heap. simpl. by rewrite <- !app_assoc.
Qed.

(** ** The request handler *)

(** When selection yields a live peer, the handler forwards to it in its
    first round and returns whatever the proxy wrote. *)
Lemma handler_forward exchange names rw r w peer w1 o :
  GetNextPeer w = Ok (Some peer, w1) →
  heap w1 !! peer = Some o → Alive o = true →
  handler exchange names rw r w
  = ServeHTTP exchange names (ReverseProxy o)
      (Header_Set (Header_Set rw "X-Forwarded-By" "Nexus")
         "X-Backend-Server" (url_String (URL o)))
      r (with_event (EvLog (LogForward r (url_String (URL o)) 1)) w1).
Proof.
  intros Hsel Ho Hup. unfold handler.
  change (Z.to_nat maxRetries) with 3%nat. cbn [handler_loop].
  change (int (0 + 1)) with 1%Z.
  rewrite (bind_Ok _ _ _ _ _ Hsel).
  assert (IsAlive peer w1 = Ok (true, w1)) as Hlive
    by (apply IsAlive_eq, liveness_Some; by exists o).
  rewrite (bind_Ok _ _ _ _ _ Hlive).
  cbn [negb]. unfold bind at 1, deref. rewrite Ho.
  unfold bind at 1, emit. done.
Qed.

Lemma GetNextPeer_all_down (w : world) :
  pool_wf w → (0 < poolLen w)%Z →
  (∀ b, b ∈ backends (serverPool w) → liveness w b = Some false) →
  GetNextPeer w = Ok (None, pinned (uint64 (current (serverPool w) + 1)) w).
Proof.
  intros Hwf HN Hdown.
  destruct (GetNextPeer_spec w Hwf HN) as [(j & b & _ & Hslot & Hl & _)|[_ Hrun]]; [|done].
  rewrite (Hdown b) in Hl by (by eapply slot_elem_of). done.
Qed.

Lemma handler_all_down exchange names rw r w :
  pool_wf w → (0 < poolLen w)%Z →
  (∀ b, b ∈ backends (serverPool w) → liveness w b = Some false) →
  handler exchange names rw r w
  = Ok (http_Error rw "Service Unavailable" StatusServiceUnavailable,
        {| heap := heap w;
           serverPool := {| backends := backends (serverPool w);
                            current := uint64 (current (serverPool w) + 3) |};
           trace := trace w ++ [EvSleep 10; EvSleep 10; EvLog (LogNoBackend r)];
           dialed := dialed w; sent := sent w |}).
Proof.
  intros Hwf HN Hdown. unfold handler.
  change (Z.to_nat maxRetries) with 3%nat. cbn [handler_loop].
  change (int (0 + 1)) with 1%Z. change (int (1 + 1)) with 2%Z.
  change (int (2 + 1)) with 3%Z.
  change (1 <? maxRetries)%Z with true. change (2 <? maxRetries)%Z with true.
  change (3 <? maxRetries)%Z with false. cbv iota.
  rewrite (bind_Ok _ _ _ _ _ (GetNextPeer_all_down w Hwf HN Hdown)).
  unfold bind at 1, emit.
  set (w1 := with_event (EvSleep 10) (pinned (uint64 (current (serverPool w) + 1)) w)).
  rewrite (bind_Ok _ _ _ _ _ (GetNextPeer_all_down w1 Hwf HN Hdown)).
  unfold bind at 1.
  set (w2 := with_event (EvSleep 10) (pinned (uint64 (current (serverPool w1) + 1)) w1)).
  rewrite (bind_Ok _ _ _ _ _ (GetNextPeer_all_down w2 Hwf HN Hdown)).
  unfold bind, ret, w2, w1, pinned, with_event, with_pool. simpl.
  rewrite <- !app_assoc. simpl.
  replace (uint64 (uint64 (uint64 (current (serverPool w) + 1) + 1) + 1))
    with (uint64 (current (serverPool w) + 3)); [done|].
  unfold uint64. rewrite Zplus_mod_idemp_l, <- Z.add_assoc, Zplus_mod_idemp_l.
  f_equal. lia.
Qed.

Lemma removeHopByHopHeaders_hop names (h : gmap string (list string)) k :
  k ∈ hopHeaders → removeHopByHopHeaders names h !! k = None.
Proof. intros Hk. unfold removeHopByHopHeaders. by apply lookup_foldr_delete. Qed.

Lemma removeHopByHopHeaders_named names (h : gmap string (list string)) k :
  k ∈ names (default [] (h !! "Connection")) → removeHopByHopHeaders names h !! k = None.
Proof.
  intros Hk. unfold removeHopByHopHeaders.
  destruct (decide (k ∈ hopHeaders)) as [Hhop|Hhop].
  - by apply lookup_foldr_delete.
  - rewrite lookup_foldr_delete_not_elem_of by done. by apply lookup_foldr_delete.
Qed.

Lemma removeHopByHopHeaders_kept names (h : gmap string (list string)) k :
  k ∉ hopHeaders → k ∉ names (default [] (h !! "Connection")) →
  removeHopByHopHeaders names h !! k = h !! k.
Proof.
  intros Hk Hn. unfold removeHopByHopHeaders.
  by rewrite !lookup_foldr_delete_not_elem_of.
Qed.

(** C6. Passive 5xx rule.  When the exchange completes with a status of
    500 or more, the wrapped transport logs it, sets the liveness of its
    backend to false, touches no other backend, and returns that very
    response and no error.  The handler, having selected a peer whose
    exchange ends so, delivers the response to the client after that single
    exchange: its status, its body, and under every header name the values
    the handler set followed by those of the response, except that the
    response's hop-by-hop headers (those of [hopHeaders] and those its
    [Connection] header lists) are not passed on.  There is no second
    selection and no second forward. *)
Theorem passive_5xx_rule (exchange : nat → url_URL → Request → Response + string)
    (names : list string → list string)
    (resp : Response) :
  (500 ≤ StatusCode resp)%Z →
  (∀ t req w o,
     heap w !! backend t = Some o →
     exchange (sent w) req.1 req.2 = inl resp →
     ∃ w', RoundTrip exchange t req w = Ok (inl resp, w') ∧
           liveness w' (backend t) = Some false ∧
           (∀ b, b ≠ backend t → heap w' !! b = heap w !! b) ∧
           serverPool w' = serverPool w ∧
           forwards (trace w') = forwards (trace w) ++ [req.1])
  ∧ (∀ rw r w peer w1 o,
       pool_wf w →
       GetNextPeer w = Ok (Some peer, w1) →
       heap w !! peer = Some o →
       Transport (ReverseProxy o) = Some {| backend := peer |} →
       exchange (sent w) (Target (ReverseProxy o)) r = inl resp →
       ∃ rw' w',
         handler exchange names rw r w = Ok (rw', w') ∧
         wStatus rw' = Some (default (StatusCode resp) (wStatus rw)) ∧
         wBody rw' = wBody rw +:+ Body resp ∧
         (∀ k,
            wHeader rw' !! k
            = match (<["X-Backend-Server" := [url_String (URL o)]]>
                       (<["X-Forwarded-By" := ["Nexus"]]> (wHeader rw))) !! k,
                    removeHopByHopHeaders names (Header resp) !! k with
              | Some set, Some passed => Some (set ++ passed)
              | Some set, None => Some set
              | None, Some passed => Some passed
              | None, None => None
              end) ∧
         (∀ k, k ∈ hopHeaders →
            removeHopByHopHeaders names (Header resp) !! k = None) ∧
         (∀ k, k ∈ names (default [] (Header resp !! "Connection")) →
            removeHopByHopHeaders names (Header resp) !! k = None) ∧
         (∀ k, k ∉ hopHeaders →
            k ∉ names (default [] (Header resp !! "Connection")) →
            removeHopByHopHeaders names (Header resp) !! k = Header resp !! k) ∧
         trace w'
         = trace w ++ [EvLog (LogForward r (url_String (URL o)) 1);
                       EvSend (Target (ReverseProxy o)) r;
                       EvLog (LogPassive5xx (url_String (URL o)) (StatusCode resp));
                       EvSetAlive peer false] ∧
         forwards (trace w') = forwards (trace w) ++ [Target (ReverseProxy o)] ∧
         sent w' = S (sent w) ∧
         serverPool w' = serverPool w1 ∧
         liveness w' peer = Some false).
Proof.
  intros H5. split.
  - intros t req w o Ho Hex.
    eexists. split; [by apply RoundTrip_5xx_eq|]. simpl.
    split; [|split; [|split]].
    + unfold liveness. simpl. rewrite list_lookup_insert_eq; [done|].
      by eapply lookup_lt_Some.
    + intros b Hb. by rewrite list_lookup_insert_ne.
    + done.
    + unfold forwards. by rewrite omap_app.
  - intros rw r w peer w1 o Hwf Hsel Ho Ht Hex.
    destruct (GetNextPeer_total w Hwf)
      as (r0 & w0 & Hrun & Hh & _ & Htr & Hs & _ & Hsome & _).
    rewrite Hsel in Hrun. injection Hrun as <- <-.
    destruct (Hsome peer eq_refl) as [_ (o' & Ho' & Hup)%liveness_Some].
    rewrite Ho in Ho'. injection Ho' as <-.
    rewrite (handler_forward exchange names rw r w peer w1 o Hsel) by (by rewrite ?Hh).
    unfold ServeHTTP. rewrite Ht.
    set (w2 := with_event _ w1).
    rewrite (bind_Ok _ _ _ _ _
               (RoundTrip_5xx_eq exchange {| backend := peer |}
                  (Target (ReverseProxy o), r) w2 o resp
                  ltac:(by rewrite <- Hh in Ho) ltac:(simpl; by rewrite Hs) H5)).
    eexists _, _. split; [done|]. simpl.
    split; [by destruct (wStatus rw)|]. split; [done|]. split.
    { intros k. unfold copyHeader. rewrite lookup_union_with.
      by destruct (_ !! k), (removeHopByHopHeaders names (Header resp) !! k). }
    split; [intros k; apply removeHopByHopHeaders_hop|].
    split; [intros k; apply removeHopByHopHeaders_named|].
    split; [intros k; apply removeHopByHopHeaders_kept|].
    split; [by rewrite Htr, <- app_assoc|].
    split; [rewrite Htr; forwards_of_trace|].
    split; [by rewrite Hs|]. split; [done|].
    unfold liveness. simpl. rewrite list_lookup_insert_eq; [done|].
    rewrite Hh. by eapply lookup_lt_Some.
Qed.

(** C7. All-DOWN dispatch outcome.  With 3 backends, all DOWN, and
    [maxRetries = 3], the handler answers 503 Service Unavailable.  It
    selected exactly 3 times (the cursor moved by 3), paused twice in
    between, and attempted no exchange with any backend. *)
Theorem handler_all_down_503 (exchange : nat → url_URL → Request → Response + string)
    (names : list string → list string)
    (rw : ResponseWriter) (r : Request) (w : world) :
  pool_wf w →
  length (backends (serverPool w)) = 3%nat →
  (∀ b, b ∈ backends (serverPool w) → liveness w b = Some false) →
  maxRetries = 3%Z ∧
  ∃ rw' w',
    handler exchange names rw r w = Ok (rw', w') ∧
    rw' = http_Error rw "Service Unavailable" StatusServiceUnavailable ∧
    (wStatus rw = None → wStatus rw' = Some 503%Z) ∧
    trace w' = trace w ++ [EvSleep 10; EvSleep 10; EvLog (LogNoBackend r)] ∧
    current (serverPool w') = uint64 (current (serverPool w) + 3) ∧
    forwards (trace w') = forwards (trace w) ∧
    sent w' = sent w ∧ heap w' = heap w.
Proof.
  intros Hwf Hlen Hdown. split; [done|].
  eexists _, _. split.
  { apply handler_all_down; [done| |done]. unfold poolLen. rewrite Hlen. done. }
  split; [done|]. split.
  { intros Hnone. unfold http_Error. simpl. by rewrite Hnone. }
  simpl. split; [done|]. split; [done|]. split; [|done].
  unfold forwards. rewrite omap_app. simpl. by rewrite app_nil_r.
Qed.

(** Supporting C1: whenever the selected peer's exchange fails at transport
    level, the handler ends after that one exchange with the proxy's
    502 Bad Gateway; the loop is not re-entered. *)
Lemma handler_transport_error exchange names rw r w peer w1 o err :
  pool_wf w →
  GetNextPeer w = Ok (Some peer, w1) →
  heap w !! peer = Some o →
  Transport (ReverseProxy o) = Some {| backend := peer |} →
  exchange (sent w) (Target (ReverseProxy o)) r = inr err →
  ∃ rw' w',
    handler exchange names rw r w = Ok (rw', w') ∧
    wStatus rw' = Some (default StatusBadGateway (wStatus rw)) ∧
    trace w'
    = trace w ++ [EvLog (LogForward r (url_String (URL o)) 1);
                  EvSend (Target (ReverseProxy o)) r;
                  EvLog (LogPassiveFailed (url_String (URL o)) err);
                  EvSetAlive peer false;
                  EvLog (LogProxyError err)] ∧
    sent w' = S (sent w).
Proof.
  intros Hwf Hsel Ho Ht Hex.
  destruct (GetNextPeer_total w Hwf)
    as (r0 & w0 & Hrun & Hh & _ & Htr & Hs & _ & Hsome & _).
  rewrite Hsel in Hrun. injection Hrun as <- <-.
  destruct (Hsome peer eq_refl) as [_ (o' & Ho' & Hup)%liveness_Some].
  rewrite Ho in Ho'. injection Ho' as <-.
  rewrite (handler_forward exchange names rw r w peer w1 o Hsel) by (by rewrite ?Hh).
  unfold ServeHTTP. rewrite Ht.
  set (w2 := with_event _ w1).
  rewrite (bind_Ok _ _ _ _ _
             (RoundTrip_error_eq exchange {| backend := peer |}
                (Target (ReverseProxy o), r) w2 o err
                ltac:(by rewrite <- Hh in Ho) Hup ltac:(simpl; by rewrite Hs))).
  eexists _, _. split; [done|]. simpl.
  split; [by destruct (wStatus rw)|].
  split; [by rewrite Htr, <- !app_assoc|]. by rewrite Hs.
Qed.

(** C1 (the code at the claim's scenario).  Three backends, all alive,
    [maxRetries = 3]; the first exchange of the request fails at transport
    level and any later one would succeed.  The handler makes exactly one
    forward attempt, to the backend selected first, marks it DOWN, and
    answers 502 Bad Gateway: it does not select again, and no second
    backend is tried. *)
Theorem handler_transport_failure_not_retried :
  ∃ rw' w',
    handler fail_then_succeed no_connection_names newResponseWriter sampleRequest
      (started backendURLs)
    = Ok (rw', w') ∧
    Alive <$> heap (started backendURLs) = [true; true; true] ∧
    forwards (trace w') = [sampleURL "8082"] ∧
    wStatus rw' = Some StatusBadGateway ∧
    wHeader rw' !! "X-Backend-Server" = Some ["http://localhost:8082"] ∧
    Alive <$> heap w' = [true; false; true] ∧
    fail_then_succeed 1 (sampleURL "8083") sampleRequest = inl (sampleResponse 200).
Proof.
  eexists _, _. split; [vm_compute; reflexivity|].
  repeat split; vm_compute; reflexivity.
Qed.

(** ** The theorems at the configured pool *)

(** C2 at the configured pool with every backend DOWN: backend 1 is set
    alive and the next selection returns it. *)
Lemma GetNextPeer_liveness_aware_witness :
  pool_wf (all_down (started backendURLs)) ∧
  ∃ w1 w2, SetAlive 1 true (all_down (started backendURLs)) = Ok (tt, w1) ∧
           GetNextPeer w1 = Ok (Some 1%nat, w2).
Proof.
  assert (pool_wf (all_down (started backendURLs))) as Hwf by pool_wf_by_computation.
  split; [exact Hwf|].
  apply (GetNextPeer_liveness_aware (all_down (started backendURLs)) Hwf).
  - apply list_elem_of_In. simpl. tauto.
  - intros b Hb. each_backend Hb.
Defined.

(** C3 at the configured pool: three calls return backends 1, 2, 0. *)
Lemma GetNextPeer_round_robin_witness :
  pool_wf (started backendURLs) ∧
  ∃ w', GetNextPeer_times 3 (started backendURLs)
        = Ok ([Some 1; Some 2; Some 0]%nat, w').
Proof.
  assert (pool_wf (started backendURLs)) as Hwf by pool_wf_by_computation.
  split; [exact Hwf|].
  destruct (GetNextPeer_round_robin (started backendURLs) Hwf) as (_ & _ & _ & w' & H & _).
  - vm_compute. discriminate.
  - intros b Hb. each_backend Hb.
  - exists w'. exact H.
Defined.

(** C8 at the pool of a fresh process. *)
Lemma GetNextPeer_empty_pool_witness :
  backends (serverPool world0) = [] ∧ GetNextPeer world0 = Ok (None, world0).
Proof.
  split; [reflexivity|].
  apply (GetNextPeer_empty_pool world0). reflexivity.
Defined.

(** C9 at backend 0 of the configured pool, all DOWN. *)
Lemma SetAlive_false_idempotent_witness :
  liveness (all_down (started backendURLs)) 0 = Some false ∧
  ∃ w', SetAlive 0 false (all_down (started backendURLs)) = Ok (tt, w') ∧
        heap w' = heap (all_down (started backendURLs)).
Proof.
  split; [reflexivity|].
  destruct (SetAlive_false_idempotent (all_down (started backendURLs)) 0
              (setAlive false (newBackend (sampleURL "8081") 0)))
    as (w' & Hrun & Hheap & _).
  - reflexivity.
  - reflexivity.
  - exists w'. split; [exact Hrun | exact Hheap].
Defined.

(** C5 at the configured pool when no backend can be reached: the pass
    returns, and its third round finds backend 2 as start-up left it, logs
    the failed health check and marks it DOWN. *)
Lemma checkHealth_transition_witness :
  pool_wf (started backendURLs) ∧
  heap (started backendURLs) !! 0%nat = Some (newBackend (sampleURL "8081") 0) ∧
  (∃ (w' : world) (ws : list world),
     checkHealth (λ _ _, false) (started backendURLs) = Ok (tt, w') ∧
     ws !! 3%nat = Some w' ∧
     ∃ u u' : world, ws !! 2%nat = Some u ∧ ws !! 3%nat = Some u' ∧
       trace u' = trace u ++ [EvDial "localhost:8083";
                              EvLog (LogFailedHealthCheck "http://localhost:8083");
                              EvSetAlive 2 false] ∧
       liveness u' 2 = Some false) ∧
  ∃ w', checkHealth_body (λ _ _, false) 0 (started backendURLs) = Ok (tt, w').
Proof.
  assert (pool_wf (started backendURLs)) as Hwf by pool_wf_by_computation.
  split; [exact Hwf|]. split; [reflexivity|].
  destruct (checkHealth_transition (λ _ _, false) (started backendURLs) Hwf)
    as [[_ (w' & ws & Hpass & _ & _ & _ & Hlast & Hsteps)] Hbody].
  split.
  - exists w', ws. split; [exact Hpass|]. split; [exact Hlast|].
    destruct (Hsteps 2%nat 2%nat eq_refl)
      as (u & u' & o & added & Hu & Hu' & Ho & _ & Hsame & Htr & Hne & _).
    assert (heap u !! 2%nat = Some (newBackend (sampleURL "8083") 2)) as Ho'.
    { refine (eq_trans (Hsame _) eq_refl). vm_compute.
      intros H. repeat (apply elem_of_cons in H as [H|H]; [discriminate H|]).
      by apply elem_of_nil in H. }
    assert (o = newBackend (sampleURL "8083") 2) as ->
      by (pose proof (eq_trans (eq_sym Ho) Ho') as Heq; by injection Heq).
    destruct Hne as (-> & _ & Hlive); [discriminate|].
    exists u, u'. split; [exact Hu|]. split; [exact Hu'|].
    split; [exact Htr | exact Hlive].
  - destruct (Hbody (started backendURLs) 0%nat (newBackend (sampleURL "8081") 0))
      as (addr & alive & v1 & v' & added & _ & _ & _ & _ & Hrun & _).
    + reflexivity.
    + exists v'. exact Hrun.
Defined.

(** C10 at the configured URLs: all three backends start alive, and the
    third entry of the pool is the backend made from the third URL. *)
Lemma NewBackend_initially_alive_witness :
  sample_Parse "http://localhost:8081" = inl (sampleURL "8081") ∧
  (∃ b w', NewBackend sample_Parse "http://localhost:8081" world0 = Ok (inl b, w') ∧
           liveness w' b = Some true) ∧
  ∃ w', main_addBackends sample_Parse backendURLs world0 = Ok (tt, w') ∧
        (∀ b, b ∈ backends (serverPool w') → liveness w' b = Some true) ∧
        ∃ b : ptr, backends (serverPool w') !! 2%nat = Some b ∧
                   heap w' !! b = Some (newBackend (sampleURL "8083") b).
Proof.
  destruct (NewBackend_initially_alive sample_Parse) as (Hnew & _ & Hmain).
  split; [reflexivity|]. split.
  - destruct (Hnew "http://localhost:8081" (sampleURL "8081") world0)
      as (b & w' & Hrun & _ & _ & Hl & _); [reflexivity|].
    exists b, w'. split; [exact Hrun | exact Hl].
  - destruct (Hmain backendURLs) as (w' & Hrun & _ & _ & _ & Hup & _ & Hentry & _).
    + intros s Hs. apply list_elem_of_In in Hs. simpl in Hs.
      destruct Hs as [<-|[<-|[<-|[]]]]; eexists; reflexivity.
    + vm_compute. discriminate.
    + exists w'. split; [exact Hrun|]. split; [exact Hup|].
      destruct (Hentry 2%nat "http://localhost:8083" eq_refl)
        as (u & b & Hu & Hb & Hobj & _).
      assert (u = sampleURL "8083") as ->
        by (pose proof (eq_trans (eq_sym Hu) eq_refl) as Heq; by injection Heq).
      exists b. split; [exact Hb | exact Hobj].
Defined.

(** C6 at the configured pool when every exchange is answered with a 503
    that carries [Keep-Alive]: the client gets the 503 and its
    [Content-Type], not its [Keep-Alive]. *)
Lemma passive_5xx_rule_witness :
  (500 ≤ StatusCode sampleResponse5xx)%Z ∧
  pool_wf (started backendURLs) ∧
  ∃ rw' w',
    handler (λ _ _ _, inl sampleResponse5xx) no_connection_names newResponseWriter
      sampleRequest (started backendURLs) = Ok (rw', w') ∧
    wStatus rw' = Some 503%Z ∧
    wHeader rw' !! "Content-Type" = Some ["text/html"] ∧
    wHeader rw' !! "Keep-Alive" = None ∧
    liveness w' 1 = Some false.
Proof.
  assert (500 ≤ StatusCode sampleResponse5xx)%Z as H5 by (vm_compute; discriminate).
  assert (pool_wf (started backendURLs)) as Hwf by pool_wf_by_computation.
  split; [exact H5|]. split; [exact Hwf|].
  destruct (passive_5xx_rule (λ _ _ _, inl sampleResponse5xx) no_connection_names
              sampleResponse5xx H5) as [_ Hhandler].
  destruct (Hhandler newResponseWriter sampleRequest (started backendURLs) 1%nat
              (pinned 1 (started backendURLs)) (newBackend (sampleURL "8082") 1))
    as (rw' & w' & Hrun & Hstatus & _ & Hhdr & Hhop & _ & Hkept & _ & _ & _ & _ & Hl).
  - exact Hwf.
  - reflexivity.
  - reflexivity.
  - reflexivity.
  - reflexivity.
  - exists rw', w'. split; [exact Hrun|]. split; [exact Hstatus|].
    split; [|split; [|exact Hl]].
    + rewrite (Hhdr "Content-Type"), (Hkept "Content-Type").
      * reflexivity.
      * intros Hin. apply list_elem_of_In in Hin. simpl in Hin.
        repeat (destruct Hin as [Hin|Hin]; [discriminate Hin|]). exact Hin.
      * intros Hin. apply list_elem_of_In in Hin. exact Hin.
    + rewrite (Hhdr "Keep-Alive"), (Hhop "Keep-Alive").
      * reflexivity.
      * apply list_elem_of_In. simpl. tauto.
Defined.

(** C7 at the configured pool with every backend DOWN. *)
Lemma handler_all_down_503_witness :
  pool_wf (all_down (started backendURLs)) ∧
  length (backends (serverPool (all_down (started backendURLs)))) = 3%nat ∧
  ∃ rw' w',
    handler fail_then_succeed no_connection_names newResponseWriter sampleRequest
      (all_down (started backendURLs)) = Ok (rw', w') ∧
    wStatus rw' = Some 503%Z ∧
    forwards (trace w') = forwards (trace (all_down (started backendURLs))).
Proof.
  assert (pool_wf (all_down (started backendURLs))) as Hwf by pool_wf_by_computation.
  split; [exact Hwf|]. split; [reflexivity|].
  destruct (handler_all_down_503 fail_then_succeed no_connection_names newResponseWriter
              sampleRequest
              (all_down (started backendURLs)) Hwf)
    as (_ & rw' & w' & Hrun & _ & Hstatus & _ & _ & Hfw & _).
  - reflexivity.
  - intros b Hb. each_backend Hb.
  - exists rw', w'. split; [exact Hrun|]. split; [apply Hstatus; reflexivity | exact Hfw].
Defined.

(** * Further properties of the code *)

(** ** ServerPool: selection with some backends DOWN *)

(** X1. What [GetNextPeer] returns on a non-empty pool.  A returned backend
    sits at the index the cursor is then pinned to; it is alive, and every
    index from the start index up to it, in cyclic order, holds a backend
    that is DOWN: the first alive backend of the scan is the one chosen.
    When none is returned every backend is DOWN and the cursor has moved
    on by exactly one (modulo 2^64). *)
Theorem GetNextPeer_first_alive (w : world) (r : option ptr) (w' : world) :
  pool_wf w → (0 < poolLen w)%Z →
  GetNextPeer w = Ok (r, w') →
  match r with
  | Some b =>
      ∃ j, (0 ≤ j < poolLen w)%Z ∧
           current (serverPool w') = ((startIndex w + j) mod poolLen w)%Z ∧
           backends (serverPool w) !! Z.to_nat (current (serverPool w')) = Some b ∧
           liveness w b = Some true ∧
           ∀ j', (0 ≤ j' < j)%Z →
             ∃ b', backends (serverPool w)
                     !! Z.to_nat ((startIndex w + j') mod poolLen w) = Some b' ∧
                   liveness w b' = Some false
  | None =>
      current (serverPool w') = uint64 (current (serverPool w) + 1) ∧
      ∀ b, b ∈ backends (serverPool w) → liveness w b = Some false
  end.
Proof.
  intros Hwf HN Hrun.
  destruct (GetNextPeer_spec w Hwf HN) as [(j & b & Hj & Hs & Hl & Hbefore & Hrun')|[Hdown Hrun']];
    rewrite Hrun' in Hrun; injection Hrun as <- <-.
  - exists j. split; [done|]. split; [done|]. split; [exact Hs|]. split; [done|].
    exact Hbefore.
  - split; [done|]. intros b Hb.
    destruct (slot_covers w (startIndex w) b (startIndex_range w HN) Hb) as (j & Hj & Hs).
    destruct (Hdown j Hj) as (b' & Hs' & Hl). congruence.
Qed.

(** X2. No immediate repeat.  After a selection has pinned the cursor to
    index [c], if some other index of the pool holds an alive backend then
    the next selection returns a backend at an index different from [c]:
    the backend just used is not used again while another one is alive. *)
Theorem GetNextPeer_no_immediate_repeat (w : world) (i : nat) (b : ptr) :
  pool_wf w →
  (0 ≤ current (serverPool w) < poolLen w)%Z →
  backends (serverPool w) !! i = Some b →
  liveness w b = Some true →
  Z.of_nat i ≠ current (serverPool w) →
  ∃ b' w', GetNextPeer w = Ok (Some b', w') ∧
           current (serverPool w') ≠ current (serverPool w) ∧
           backends (serverPool w) !! Z.to_nat (current (serverPool w')) = Some b' ∧
           liveness w b' = Some true.
Proof.
  intros Hwf Hc Hi Hl Hne.
  pose proof (lookup_lt_Some _ _ _ Hi) as Hlt.
  set (N := poolLen w) in *. set (c := current (serverPool w)) in *.
  assert (0 < N)%Z as HN by lia.
  assert (Z.of_nat i < N)%Z as HiN by (unfold N, poolLen; lia).
  assert (startIndex w = (c + 1) mod N)%Z as Hstart.
  { unfold startIndex. fold c N. rewrite uint64_small; [done|].
    destruct Hwf as [Hlen _]. fold N in Hlen. lia. }
  (* the offset at which the scan meets index [i] *)
  set (ji := ((Z.of_nat i - startIndex w) mod N)%Z).
  assert (0 ≤ ji < N)%Z as Hji by (by apply Z.mod_pos_bound).
  assert (((startIndex w + ji) mod N)%Z = Z.of_nat i) as Hati.
  { unfold ji. rewrite Zplus_mod_idemp_r.
    replace (startIndex w + (Z.of_nat i - startIndex w))%Z with (Z.of_nat i) by lia.
    apply Z.mod_small. lia. }
  (* offsets below [N - 1] never lead back to [c] *)
  assert (∀ j, (0 ≤ j < N - 1)%Z → ((startIndex w + j) mod N)%Z ≠ c) as Hoff.
  { intros j Hj Heq. rewrite Hstart, Zplus_mod_idemp_l in Heq.
    pose proof (Z.div_mod (c + 1 + j) N ltac:(lia)) as Hdm. rewrite Heq in Hdm.
    assert (1 + j = N * ((c + 1 + j) / N))%Z as Hq by lia.
    assert (0 < (c + 1 + j) / N)%Z by nia. nia. }
  assert (ji < N - 1)%Z as Hji'.
  { destruct (decide (ji = N - 1)%Z) as [Heq|]; [|lia].
    exfalso. apply Hne. rewrite <- Hati, Heq, Hstart, Zplus_mod_idemp_l.
    replace (c + 1 + (N - 1))%Z with (c + 1 * N)%Z by lia.
    rewrite Z.mod_add by lia. apply Z.mod_small. lia. }
  destruct (GetNextPeer_spec w Hwf HN)
    as [(j & b' & Hj & Hs & Hl' & Hbefore & Hrun)|[Hdown _]].
  - exists b', (pinned ((startIndex w + j) mod N) w).
    assert (j ≤ ji)%Z as Hle.
    { destruct (decide (j ≤ ji)%Z) as [|Hgt]; [done|].
      destruct (Hbefore ji ltac:(lia)) as (b0 & Hs0 & Hl0).
      unfold slot in Hs0. fold N in Hs0. rewrite Hati, Nat2Z.id, Hi in Hs0.
      injection Hs0 as <-. congruence. }
    split; [done|]. split; [apply Hoff; lia|]. split; [exact Hs|done].
  - destruct (Hdown ji Hji) as (b0 & Hs0 & Hl0).
    unfold slot in Hs0. fold N in Hs0. rewrite Hati, Nat2Z.id, Hi in Hs0.
    injection Hs0 as <-. congruence.
Qed.

(** X3. [NextIndex] on a non-empty pool returns a valid index of the
    slice, namely the advanced cursor reduced modulo the pool size, and
    advances the cursor by exactly one modulo 2^64 (so that it wraps from
    [2^64 - 1] to 0); it touches nothing else and does not abort. *)
Theorem NextIndex_in_range (w : world) :
  (0 < poolLen w ≤ 2 ^ 61)%Z →
  ∃ idx w',
    NextIndex w = Ok (idx, w') ∧
    (0 ≤ idx < poolLen w)%Z ∧
    idx = (((current (serverPool w) + 1) mod 2 ^ 64) mod poolLen w)%Z ∧
    is_Some (backends (serverPool w) !! Z.to_nat idx) ∧
    current (serverPool w') = ((current (serverPool w) + 1) mod 2 ^ 64)%Z ∧
    (current (serverPool w) = 2 ^ 64 - 1 → current (serverPool w') = 0 ∧ idx = 0)%Z ∧
    backends (serverPool w') = backends (serverPool w) ∧
    heap w' = heap w ∧ trace w' = trace w.
Proof.
  intros HN. eexists _, _. split; [by apply NextIndex_eq|].
  pose proof (startIndex_range w ltac:(lia)) as Hs.
  split; [done|]. split; [done|]. split.
  { apply lookup_lt_is_Some. unfold poolLen in *. lia. }
  split; [done|]. split; [|done].
  intros Hc. simpl. unfold startIndex, uint64. rewrite Hc. done.
Qed.

(** ** Backend: setter and getter *)

(** X4. [SetAlive] then [IsAlive].  After [SetAlive(v)] on a backend,
    [IsAlive] on it returns [v]; the backend keeps its URL and its proxy,
    every other backend is untouched, and so is the pool. *)
Theorem SetAlive_IsAlive (w : world) (b : ptr) (o : Backend) (v : bool) :
  heap w !! b = Some o →
  ∃ w', SetAlive b v w = Ok (tt, w') ∧
        IsAlive b w' = Ok (v, w') ∧
        heap w' !! b = Some (setAlive v o) ∧
        URL (setAlive v o) = URL o ∧ ReverseProxy (setAlive v o) = ReverseProxy o ∧
        (∀ b', b' ≠ b → heap w' !! b' = heap w !! b') ∧
        length (heap w') = length (heap w) ∧
        serverPool w' = serverPool w.
Proof.
  intros Ho. eexists. split; [by apply SetAlive_eq|].
  assert (<[b := setAlive v o]> (heap w) !! b = Some (setAlive v o)) as Hb.
  { rewrite list_lookup_insert_eq; [done|]. by eapply lookup_lt_Some. }
  split; [apply IsAlive_eq, liveness_Some; by eexists|].
  split; [done|]. split; [done|]. split; [done|]. split.
  { intros b' Hne. simpl. by rewrite list_lookup_insert_ne. }
  split; [simpl; by rewrite length_insert|done].
Qed.

(** ** ServerPool: the administrative status path *)

Lemma liveness_SetAlive_same w b o alive :
  heap w !! b = Some o →
  liveness (with_event (EvSetAlive b alive)
              (with_heap (<[b := setAlive alive o]> (heap w)) w)) b = Some alive.
Proof.
  intros Ho. rewrite (liveness_SetAlive w b o alive b Ho).
  by destruct (decide (b = b)).
Qed.


Lemma MarkBackendStatus_range_no_match (bs : list ptr) w u alive :
  Forall (λ b', ∃ o', heap w !! b' = Some o' ∧ url_String (URL o') ≠ url_String u) bs →
  ∀ rest, MarkBackendStatus_range (bs ++ rest) u alive w
          = MarkBackendStatus_range rest u alive w.
Proof.
  induction 1 as [|b bs (o & Ho & Hne) _ IH]; intros rest; [done|].
  simpl. unfold bind, deref. rewrite Ho.
  destruct (String.eqb_spec (url_String (URL o)) (url_String u)); [done|]. apply IH.
Qed.

Lemma MarkBackendStatus_first_eq w u b o alive :
  first_match w u b o →
  MarkBackendStatus u alive w = SetAlive b alive w.
Proof.
  intros (pre & post & Hbs & Hpre & Ho & Hu).
  unfold MarkBackendStatus. rewrite Hbs.
  rewrite (MarkBackendStatus_range_no_match pre w u alive Hpre).
  simpl. unfold bind at 1, deref. rewrite Ho, Hu.
  by rewrite String.eqb_refl.
Qed.

Lemma first_match_SetAlive w u b o alive :
  first_match w u b o →
  first_match (with_event (EvSetAlive b alive)
                 (with_heap (<[b := setAlive alive o]> (heap w)) w)) u b (setAlive alive o).
Proof.
  intros (pre & post & Hbs & Hpre & Ho & Hu).
  exists pre, post. split; [done|].
  pose proof (lookup_lt_Some _ _ _ Ho) as Hlt. simpl. split; [|split].
  - eapply Forall_impl; [exact Hpre|]. intros b' (o' & Ho' & Hne).
    exists o'. split; [|done].
    rewrite list_lookup_insert_ne; [done|]. intros <-. congruence.
  - by rewrite list_lookup_insert_eq.
  - done.
Qed.

(** X5. [MarkBackendStatus] writes the first backend of the pool whose URL
    prints like the given one, exactly as [SetAlive] on it would, and stops
    there: a later backend with the same URL is left as it is.  When no
    backend of the pool has that URL nothing happens at all. *)
Theorem MarkBackendStatus_first_only (w : world) (u : url_URL) (alive : bool) :
  pool_wf w →
  (∀ b o, first_match w u b o →
     ∃ w', MarkBackendStatus u alive w = Ok (tt, w') ∧
           SetAlive b alive w = Ok (tt, w') ∧
           liveness w' b = Some alive ∧
           (∀ b', b' ≠ b → heap w' !! b' = heap w !! b') ∧
           trace w' = trace w ++ [EvSetAlive b alive])
  ∧ ((∀ b o, b ∈ backends (serverPool w) → heap w !! b = Some o →
        url_String (URL o) ≠ url_String u) →
     MarkBackendStatus u alive w = Ok (tt, w)).
Proof.
  intros [_ Hall]. split.
  - intros b o Hfirst.
    pose proof Hfirst as (_ & _ & _ & _ & Ho & _).
    eexists. rewrite (MarkBackendStatus_first_eq w u b o alive Hfirst).
    split; [by apply SetAlive_eq|]. split; [by apply SetAlive_eq|].
    split; [by apply liveness_SetAlive_same|].
    split; [|done]. intros b' Hne. simpl. by rewrite list_lookup_insert_ne.
  - intros Hnone. unfold MarkBackendStatus.
    rewrite <- (app_nil_r (backends (serverPool w))).
    rewrite MarkBackendStatus_range_no_match; [done|].
    rewrite Forall_forall in Hall. apply Forall_forall. intros b Hb.
    destruct (Hall b Hb) as [o Ho]. exists o. split; [done|]. by eapply Hnone.
Qed.

(** X6. DOWN then UP through the administrative path.  Marking a pooled
    backend DOWN by its URL takes it out of selection; marking it UP again
    by the same URL puts it back: the object is as before except that it
    is alive (the heap is exactly as before when it was alive), the pool
    is unchanged, and selection finds a live candidate again. *)
Theorem MarkBackendStatus_down_up (w : world) (u : url_URL) (b : ptr) (o : Backend) :
  pool_wf w → first_match w u b o →
  ∃ w1 w2,
    MarkBackendStatus u false w = Ok (tt, w1) ∧
    liveness w1 b = Some false ∧
    (∀ p w', GetNextPeer w1 = Ok (Some p, w') → p ≠ b) ∧
    MarkBackendStatus u true w1 = Ok (tt, w2) ∧
    heap w2 = <[b := setAlive true o]> (heap w) ∧
    (Alive o = true → heap w2 = heap w) ∧
    serverPool w2 = serverPool w ∧
    ∃ p w3, GetNextPeer w2 = Ok (Some p, w3) ∧ liveness w2 p = Some true.
Proof.
  intros Hwf Hfirst.
  pose proof Hfirst as (pre & post & Hbs & _ & Ho & _).
  pose proof (lookup_lt_Some _ _ _ Ho) as Hlt.
  set (w1 := with_event (EvSetAlive b false)
               (with_heap (<[b := setAlive false o]> (heap w)) w)).
  pose proof (first_match_SetAlive w u b o false Hfirst) as Hfirst1. fold w1 in Hfirst1.
  assert (pool_wf w1) as Hwf1 by (by apply pool_wf_SetAlive).
  assert (heap w1 !! b = Some (setAlive false o)) as Ho1
    by (simpl; by rewrite list_lookup_insert_eq).
  set (w2 := with_event (EvSetAlive b true)
               (with_heap (<[b := setAlive true (setAlive false o)]> (heap w1)) w1)).
  assert (pool_wf w2) as Hwf2 by (by apply pool_wf_SetAlive).
  assert (heap w2 = <[b := setAlive true o]> (heap w)) as Hheap
    by (simpl; by rewrite list_insert_insert_eq).
  assert (liveness w2 b = Some true) as Hup
    by (by apply liveness_SetAlive_same).
  exists w1, w2.
  split; [rewrite (MarkBackendStatus_first_eq w u b o false Hfirst); by apply SetAlive_eq|].
  split; [by apply liveness_SetAlive_same|].
  split.
  { intros p w' Hsel ->.
    destruct (GetNextPeer_total w1 Hwf1) as (r & w0 & Hrun & _ & _ & _ & _ & _ & Hsome & _).
    rewrite Hsel in Hrun. injection Hrun as <- <-.
    destruct (Hsome b eq_refl) as [_ Hl]. unfold w1 in Hl.
    rewrite (liveness_SetAlive_same w b o false Ho) in Hl. done. }
  split; [rewrite (MarkBackendStatus_first_eq w1 u b _ true Hfirst1); by apply SetAlive_eq|].
  split; [done|]. split.
  { intros Halive. rewrite Hheap, <- Halive, setAlive_id. by apply list_insert_id. }
  split; [done|].
  destruct (GetNextPeer_total w2 Hwf2) as (r & w3 & Hrun & _ & _ & _ & _ & _ & Hsome & Hnone).
  destruct r as [p|].
  - exists p, w3. split; [done|]. by apply Hsome.
  - assert (b ∈ backends (serverPool w2)) as Hin.
    { change (backends (serverPool w2)) with (backends (serverPool w)).
      rewrite Hbs. apply elem_of_app. right. by left. }
    rewrite (Hnone eq_refl b Hin) in Hup. done.
Qed.

(** ** ServerPool: the status query *)

Lemma GetPoolStatus_range_eq (w : world) (bs : list ptr) :
  Forall (λ b, is_Some (heap w !! b)) bs →
  ∀ acc, (0 ≤ acc)%Z → (acc + Z.of_nat (length bs) < 2 ^ 63)%Z →
  GetPoolStatus_range bs acc w
  = Ok ((acc + Z.of_nat (length (filter (λ b, liveness w b = Some true) bs)))%Z, w).
Proof.
  induction 1 as [|b bs [o Ho] _ IH]; intros acc Hacc Hbound.
  - simpl. unfold ret. by rewrite Z.add_0_r.
  - cbn [GetPoolStatus_range].
    assert (liveness w b = Some (Alive o)) as Hl by (apply liveness_Some; by exists o).
    rewrite (bind_Ok _ _ _ _ _ (IsAlive_eq w b (Alive o) Hl)).
    simpl in Hbound. rewrite filter_cons. destruct (Alive o) eqn:Ha.
    + rewrite decide_True by done. rewrite int_small by lia.
      rewrite IH by lia. simpl. do 2 f_equal. lia.
    + rewrite decide_False by (rewrite Hl; done). by rewrite IH by lia.
Qed.

(** X7. [GetPoolStatus] returns the number of pool entries whose backend
    is alive and the size of the pool, with [0 <= alive <= total], and
    changes nothing. *)
Theorem GetPoolStatus_counts (w : world) :
  pool_wf w →
  GetPoolStatus w = Ok ((aliveCount w, poolLen w), w) ∧
  (0 ≤ aliveCount w ≤ poolLen w)%Z.
Proof.
  intros [Hlen Hall]. split.
  - unfold GetPoolStatus, len_backends, GetBackends, bind at 1 2.
    rewrite (bind_Ok _ _ _ _ _ (GetPoolStatus_range_eq w _ Hall 0%Z ltac:(lia)
                                  ltac:(unfold poolLen in Hlen; lia))).
    done.
  - unfold aliveCount, poolLen.
    pose proof (length_filter (λ b, liveness w b = Some true) (backends (serverPool w))).
    lia.
Qed.

Lemma GetPoolStatus_eq (w : world) :
  pool_wf w → GetPoolStatus w = Ok ((aliveCount w, poolLen w), w).
Proof.
  intros [Hlen Hall].
  unfold GetPoolStatus, len_backends, GetBackends, bind at 1 2.
  rewrite (bind_Ok _ _ _ _ _ (GetPoolStatus_range_eq w _ Hall 0%Z ltac:(lia)
                                ltac:(unfold poolLen in Hlen; lia))).
  done.
Qed.

(** X8. The status query and selection agree.  Run in the same world,
    [GetPoolStatus] returns (leaving the world as it was) an alive count
    that is zero exactly when [GetNextPeer] finds no candidate, and
    positive exactly when [GetNextPeer] returns a backend; that backend is
    then one of the pool's and alive. *)
Theorem GetPoolStatus_zero_iff_no_peer (w : world) :
  pool_wf w →
  ∃ alive total r w',
    GetPoolStatus w = Ok ((alive, total), w) ∧
    GetNextPeer w = Ok (r, w') ∧
    (alive = 0%Z ↔ r = None) ∧
    ((0 < alive)%Z ↔ ∃ b, r = Some b ∧ b ∈ backends (serverPool w) ∧
                          liveness w b = Some true).
Proof.
  intros Hwf.
  destruct (GetNextPeer_total w Hwf) as (r & w' & Hrun & _ & _ & _ & _ & _ & Hsome & Hnone).
  exists (aliveCount w), (poolLen w), r, w'.
  split; [by apply GetPoolStatus_eq|]. split; [done|].
  assert (aliveCount w = 0%Z ↔ r = None) as Hzero.
  { unfold aliveCount. split.
    - intros Hzero. destruct r as [b|]; [|done].
      destruct (Hsome b eq_refl) as [Hin Hl].
      assert (b ∈ filter (λ b, liveness w b = Some true) (backends (serverPool w))) as Hb
        by (by apply list_elem_of_filter).
      destruct (filter _ _); [by apply elem_of_nil in Hb|]. simpl in Hzero. lia.
    - intros ->.
      destruct (filter _ _) as [|b l] eqn:Hf; [done|].
      assert (b ∈ filter (λ b, liveness w b = Some true) (backends (serverPool w))) as Hb
        by (rewrite Hf; by left).
      apply list_elem_of_filter in Hb as [Hl Hin].
      rewrite (Hnone eq_refl b Hin) in Hl. done. }
  split; [exact Hzero|].
  assert (0 ≤ aliveCount w)%Z as Hpos by (unfold aliveCount; lia).
  split.
  - intros Hlt. destruct r as [b|].
    + exists b. split; [done|]. destruct (Hsome b eq_refl) as [Hin Hl]. done.
    + pose proof (proj2 Hzero eq_refl). lia.
  - intros (b & -> & _). destruct (Z.eq_dec (aliveCount w) 0%Z) as [Hz|Hz]; [|lia].
    by apply Hzero in Hz.
Qed.

(** ** The passive transport: other outcomes *)

Lemma RoundTrip_error_down_eq exchange t req w o err :
  heap w !! backend t = Some o → Alive o = false →
  exchange (sent w) req.1 req.2 = inr err →
  RoundTrip exchange t req w
  = Ok (inr err,
        {| heap := heap w; serverPool := serverPool w;
           trace := trace w ++ [EvSend req.1 req.2];
           dialed := dialed w; sent := S (sent w) |}).
Proof.
  intros Ho Hdown Hex. unfold RoundTrip. unfold bind at 1, transport_RoundTrip.
  rewrite Hex.
  set (w1 := {| heap := heap w; serverPool := serverPool w;
                trace := trace w ++ [EvSend req.1 req.2];
                dialed := dialed w; sent := S (sent w) |}).
  assert (IsAlive (backend t) w1 = Ok (false, w1)) as Hlive
    by (apply IsAlive_eq, liveness_Some; by exists o).
  unfold bind at 1. by rewrite Hlive.
Qed.

Lemma RoundTrip_ok_eq exchange t req w resp :
  exchange (sent w) req.1 req.2 = inl resp →
  (StatusCode resp < 500)%Z →
  RoundTrip exchange t req w
  = Ok (inl resp,
        {| heap := heap w; serverPool := serverPool w;
           trace := trace w ++ [EvSend req.1 req.2];
           dialed := dialed w; sent := S (sent w) |}).
Proof.
  intros Hex Hlt. unfold RoundTrip. unfold bind at 1, transport_RoundTrip.
  rewrite Hex. by destruct (Z.leb_spec 500 (StatusCode resp)) as [|_]; [lia|].
Qed.

(** X9. Passive detection of a transport error.  When the exchange fails
    at transport level, [RoundTrip] hands the same error to its caller and
    the backend is DOWN afterwards.  It logs and writes the liveness only
    when the backend was alive; on a backend that is already DOWN it
    neither logs nor writes, and no other backend is touched in any case. *)
Theorem RoundTrip_transport_error (exchange : nat → url_URL → Request → Response + string)
    (t : passiveHealthCheckTransport) (req : url_URL * Request)
    (w : world) (o : Backend) (err : string) :
  heap w !! backend t = Some o →
  exchange (sent w) req.1 req.2 = inr err →
  ∃ w', RoundTrip exchange t req w = Ok (inr err, w') ∧
        liveness w' (backend t) = Some false ∧
        (∀ b, b ≠ backend t → heap w' !! b = heap w !! b) ∧
        serverPool w' = serverPool w ∧ sent w' = S (sent w) ∧
        trace w'
        = trace w ++ EvSend req.1 req.2 ::
            (if Alive o then [EvLog (LogPassiveFailed (url_String (URL o)) err);
                              EvSetAlive (backend t) false]
             else []) ∧
        (Alive o = false → heap w' = heap w).
Proof.
  intros Ho Hex. destruct (Alive o) eqn:Halive.
  - eexists. split; [by apply (RoundTrip_error_eq exchange t req w o err)|]. simpl.
    split; [|split; [|done]].
    + unfold liveness. simpl. rewrite list_lookup_insert_eq; [done|].
      by eapply lookup_lt_Some.
    + intros b Hb. by rewrite list_lookup_insert_ne.
  - eexists. split; [by apply (RoundTrip_error_down_eq exchange t req w o err)|]. simpl.
    split; [apply liveness_Some; by exists o|]. done.
Qed.

(** X10. A response below 500 is no health signal: [RoundTrip] returns it
    as it is and changes no backend and nothing of the pool, whatever the
    backend's liveness was (a backend that is DOWN stays DOWN: a good
    response does not revive it). *)
Theorem RoundTrip_below_500 (exchange : nat → url_URL → Request → Response + string)
    (t : passiveHealthCheckTransport) (req : url_URL * Request)
    (w : world) (resp : Response) :
  exchange (sent w) req.1 req.2 = inl resp →
  (StatusCode resp < 500)%Z →
  ∃ w', RoundTrip exchange t req w = Ok (inl resp, w') ∧
        heap w' = heap w ∧ serverPool w' = serverPool w ∧
        trace w' = trace w ++ [EvSend req.1 req.2] ∧
        sent w' = S (sent w) ∧
        ∀ b, liveness w' b = liveness w b.
Proof.
  intros Hex Hlt. eexists. split; [by apply RoundTrip_ok_eq|]. done.
Qed.

(** X11. The wrapper is transparent and only ever marks DOWN.  Whatever
    the network answers, [RoundTrip] returns that very answer after exactly
    one exchange, leaves every backend other than its own untouched, and a
    backend that is alive afterwards was alive before. *)
Theorem RoundTrip_never_revives (exchange : nat → url_URL → Request → Response + string)
    (t : passiveHealthCheckTransport) (req : url_URL * Request)
    (w : world) (o : Backend) :
  heap w !! backend t = Some o →
  ∃ w', RoundTrip exchange t req w = Ok (exchange (sent w) req.1 req.2, w') ∧
        sent w' = S (sent w) ∧
        forwards (trace w') = forwards (trace w) ++ [req.1] ∧
        serverPool w' = serverPool w ∧
        (∀ b, b ≠ backend t → heap w' !! b = heap w !! b) ∧
        (∀ b, liveness w' b = Some true → liveness w b = Some true).
Proof.
  intros Ho.
  assert (∀ v : world, heap v = <[backend t := setAlive false o]> (heap w) →
            ∀ b, liveness v b = Some true → liveness w b = Some true) as Hdown.
  { intros v Hv b. unfold liveness. rewrite Hv.
    destruct (decide (b = backend t)) as [->|Hne].
    - rewrite list_lookup_insert_eq; [done|]. by eapply lookup_lt_Some.
    - by rewrite list_lookup_insert_ne. }
  destruct (exchange (sent w) req.1 req.2) as [resp|err] eqn:Hex.
  - destruct (Z.leb_spec 500 (StatusCode resp)) as [H5|Hlt].
    + eexists. split; [by apply (RoundTrip_5xx_eq exchange t req w o resp)|]. simpl.
      split; [done|]. split; [unfold forwards; by rewrite omap_app|]. split; [done|].
      split; [intros b Hb; by rewrite list_lookup_insert_ne|]. by apply Hdown.
    + eexists. split; [by apply RoundTrip_ok_eq|]. simpl.
      split; [done|]. split; [unfold forwards; by rewrite omap_app|]. done.
  - destruct (Alive o) eqn:Halive.
    + eexists. split; [by apply (RoundTrip_error_eq exchange t req w o err)|]. simpl.
      split; [done|]. split; [unfold forwards; by rewrite omap_app|]. split; [done|].
      split; [intros b Hb; by rewrite list_lookup_insert_ne|]. by apply Hdown.
    + eexists. split; [by apply (RoundTrip_error_down_eq exchange t req w o err)|]. simpl.
      split; [done|]. split; [unfold forwards; by rewrite omap_app|]. done.
Qed.

(** ** The request handler: every outcome *)

Lemma selected_alive w peer w1 o :
  pool_wf w → GetNextPeer w = Ok (Some peer, w1) → heap w !! peer = Some o →
  Alive o = true ∧ peer ∈ backends (serverPool w) ∧
  heap w1 = heap w ∧ trace w1 = trace w ∧ sent w1 = sent w ∧
  backends (serverPool w1) = backends (serverPool w).
Proof.
  intros Hwf Hsel Ho.
  destruct (GetNextPeer_total w Hwf)
    as (r0 & w0 & Hrun & Hh & Hb & Htr & Hs & _ & Hsome & _).
  rewrite Hsel in Hrun. injection Hrun as <- <-.
  destruct (Hsome peer eq_refl) as [Hin (o' & Ho' & Hup)%liveness_Some].
  rewrite Ho in Ho'. by injection Ho' as <-.
Qed.

(** The handler once a live peer with a wired proxy is selected: one
    exchange, whose outcome decides status and liveness. *)
Lemma handler_selected exchange names rw r w peer w1 o :
  pool_wf w → GetNextPeer w = Ok (Some peer, w1) → heap w !! peer = Some o →
  Transport (ReverseProxy o) = Some {| backend := peer |} →
  ∃ rw' w',
    handler exchange names rw r w = Ok (rw', w') ∧
    sent w' = S (sent w) ∧
    forwards (trace w') = forwards (trace w) ++ [Target (ReverseProxy o)] ∧
    serverPool w' = serverPool w1 ∧
    length (heap w') = length (heap w) ∧
    (∀ b, b ≠ peer → heap w' !! b = heap w !! b) ∧
    match exchange (sent w) (Target (ReverseProxy o)) r with
    | inr err =>
        liveness w' peer = Some false ∧
        wStatus rw' = Some (default StatusBadGateway (wStatus rw))
    | inl resp =>
        liveness w' peer = Some (negb (500 <=? StatusCode resp)%Z) ∧
        wStatus rw' = Some (default (StatusCode resp) (wStatus rw)) ∧
        wBody rw' = wBody rw +:+ Body resp
    end.
Proof.
  intros Hwf Hsel Ho Ht.
  destruct (selected_alive w peer w1 o Hwf Hsel Ho) as (Hup & _ & Hh & Htr & Hs & _).
  pose proof (lookup_lt_Some _ _ _ Ho) as Hlt.
  rewrite (handler_forward exchange names rw r w peer w1 o Hsel) by (by rewrite ?Hh).
  unfold ServeHTTP. rewrite Ht.
  set (w2 := with_event _ w1).
  assert (heap w2 !! peer = Some o) as Ho2 by (simpl; by rewrite Hh).
  assert (sent w2 = sent w) as Hs2 by done.
  assert (forwards (trace w2) = forwards (trace w)) as Hf2.
  { simpl. rewrite Htr. unfold forwards. rewrite omap_app. simpl. by rewrite app_nil_r. }
  assert (∀ v : world, heap v = <[peer := setAlive false o]> (heap w2) →
            length (heap v) = length (heap w) ∧
            (∀ b, b ≠ peer → heap v !! b = heap w !! b) ∧
            liveness v peer = Some false) as Hdown.
  { intros v Hv. unfold liveness. rewrite Hv. simpl. rewrite Hh, length_insert.
    split; [done|]. split; [intros b Hb; by rewrite list_lookup_insert_ne|].
    by rewrite list_lookup_insert_eq. }
  destruct (exchange (sent w) (Target (ReverseProxy o)) r) as [resp|err] eqn:Hex0.
  - assert (exchange (sent w2) (Target (ReverseProxy o), r).1 (Target (ReverseProxy o), r).2
            = inl resp) as Hex by (simpl; by rewrite Hs).
    destruct (Z.leb_spec 500 (StatusCode resp)) as [H5|Hlt5].
    + rewrite (bind_Ok _ _ _ _ _
                 (RoundTrip_5xx_eq exchange {| backend := peer |}
                    (Target (ReverseProxy o), r) w2 o resp Ho2 Hex H5)).
      eexists _, _. split; [done|]. simpl. rewrite Hs.
      split; [done|]. split.
      { rewrite Htr. forwards_of_trace. }
      split; [done|].
      destruct (Hdown {| heap := <[peer := setAlive false o]> (heap w1);
                         serverPool := serverPool w1; trace := [];
                         dialed := 0; sent := 0 |} eq_refl) as (Hl & Ho' & Hp).
      split; [exact Hl|]. split; [exact Ho'|]. split; [exact Hp|].
      split; [by destruct (wStatus rw)|done].
    + rewrite (bind_Ok _ _ _ _ _
                 (RoundTrip_ok_eq exchange {| backend := peer |}
                    (Target (ReverseProxy o), r) w2 resp Hex Hlt5)).
      eexists _, _. split; [done|]. simpl. rewrite Hs, Hh.
      split; [done|]. split.
      { rewrite Htr. forwards_of_trace. }
      split; [done|]. split; [done|]. split; [done|].
      split; [apply liveness_Some; by exists o|].
      split; [by destruct (wStatus rw)|done].
  - assert (exchange (sent w2) (Target (ReverseProxy o), r).1 (Target (ReverseProxy o), r).2
            = inr err) as Hex by (simpl; by rewrite Hs).
    rewrite (bind_Ok _ _ _ _ _
               (RoundTrip_error_eq exchange {| backend := peer |}
                  (Target (ReverseProxy o), r) w2 o err Ho2 Hup Hex)).
    eexists _, _. split; [done|]. simpl. rewrite Hs.
    split; [done|]. split.
    { rewrite Htr. forwards_of_trace. }
    split; [done|].
    destruct (Hdown {| heap := <[peer := setAlive false o]> (heap w1);
                       serverPool := serverPool w1; trace := [];
                       dialed := 0; sent := 0 |} eq_refl) as (Hl & Ho' & Hp).
    split; [exact Hl|]. split; [exact Ho'|]. split; [exact Hp|].
    by destruct (wStatus rw).
Qed.




(** X14. Failover for the next request.  When the exchange with the
    selected peer fails at transport level or is answered with a status of
    500 or more, the handler leaves that peer DOWN, and the selection of
    the next request does not return it. *)
Theorem handler_failure_next_selection
    (exchange : nat → url_URL → Request → Response + string)
    (names : list string → list string)
    (rw : ResponseWriter) (r : Request) (w : world) (peer : ptr) (w1 : world)
    (o : Backend) :
  pool_wf w →
  GetNextPeer w = Ok (Some peer, w1) →
  heap w !! peer = Some o →
  Transport (ReverseProxy o) = Some {| backend := peer |} →
  match exchange (sent w) (Target (ReverseProxy o)) r with
  | inr _ => True
  | inl resp => (500 ≤ StatusCode resp)%Z
  end →
  ∃ rw' w',
    handler exchange names rw r w = Ok (rw', w') ∧
    liveness w' peer = Some false ∧
    ∃ next w'', GetNextPeer w' = Ok (next, w'') ∧ next ≠ Some peer.
Proof.
  intros Hwf Hsel Ho Ht Hfail.
  destruct (selected_alive w peer w1 o Hwf Hsel Ho) as (_ & _ & _ & _ & _ & Hbs).
  destruct (handler_selected exchange names rw r w peer w1 o Hwf Hsel Ho Ht)
    as (rw' & w' & Hrun & _ & _ & Hp & Hlen & _ & Hout).
  assert (liveness w' peer = Some false) as Hdown.
  { destruct (exchange (sent w) (Target (ReverseProxy o)) r) as [resp|err].
    - destruct Hout as [Hl _]. rewrite Hl.
      by destruct (Z.leb_spec 500 (StatusCode resp)) as [_|]; [|lia].
    - by destruct Hout. }
  assert (pool_wf w') as Hwf'.
  { destruct Hwf as [Hn Hall]. split.
    - unfold poolLen in *. by rewrite Hp, Hbs.
    - rewrite Hp, Hbs. eapply Forall_impl; [exact Hall|]. intros b Hb. simpl in Hb.
      apply lookup_lt_is_Some. rewrite Hlen. by apply lookup_lt_is_Some. }
  exists rw', w'. split; [done|]. split; [done|].
  destruct (GetNextPeer_total w' Hwf')
    as (next & w'' & Hnext & _ & _ & _ & _ & _ & Hsome & _).
  exists next, w''. split; [done|]. intros ->.
  destruct (Hsome peer eq_refl) as [_ Hl]. congruence.
Qed.


(** ** HealthChecker: a whole pass *)

Lemma last_occurrence `{EqDecision A} (l : list A) (x : A) :
  x ∈ l → ∃ k, l !! k = Some x ∧ ∀ k', k < k' → l !! k' ≠ Some x.
Proof.
  induction l as [|a l IH]; intros Hx; [by apply elem_of_nil in Hx|].
  destruct (decide (x ∈ l)) as [Hin|Hnot].
  - destruct (IH Hin) as (k & Hk & Hlast). exists (S k). split; [done|].
    intros [|k'] Hlt; [lia|]. simpl. apply Hlast. lia.
  - apply elem_of_cons in Hx as [->|Hin]; [|done].
    exists 0. split; [done|]. intros [|k'] Hlt; [lia|]. simpl.
    intros Hk'. apply Hnot. by eapply list_elem_of_lookup_2.
Qed.

Lemma checkHealth_range_result dial (bs : list ptr) :
  ∀ v, Forall (λ b, is_Some (heap v !! b)) bs →
  ∃ v', for_range bs (checkHealth_body dial) v = Ok (tt, v') ∧
        serverPool v' = serverPool v ∧
        dialed v' = (dialed v + length bs)%nat ∧ sent v' = sent v ∧
        (∀ (b : ptr) o, heap v !! b = Some o → ∃ a, heap v' !! b = Some (setAlive a o)) ∧
        (∀ b, b ∉ bs → heap v' !! b = heap v !! b) ∧
        (∀ k b o, bs !! k = Some b → (∀ k', k < k' → bs !! k' ≠ Some b) →
           heap v !! b = Some o →
           liveness v' b = Some (dial (dialed v + k)%nat (dialAddress (URL o)))).
Proof.
  induction bs as [|b bs IH]; intros v Hall.
  - exists v. split; [done|]. split; [done|]. split; [simpl; lia|]. split; [done|].
    split; [|done]. intros b o Ho. exists (Alive o). by rewrite setAlive_id.
  - apply Forall_cons in Hall as [[o0 Ho0] Hall].
    pose proof (lookup_lt_Some _ _ _ Ho0) as Hlt0.
    cbn [for_range]. rewrite (bind_Ok _ _ _ _ _ (checkHealth_body_at dial v b o0 Ho0)).
    set (a0 := dial (dialed v) (dialAddress (URL o0))).
    match goal with |- context [for_range bs _ ?x] => set (v1 := x) end.
    assert (heap v1 = <[b := setAlive a0 o0]> (heap v)) as Hh1 by done.
    destruct (IH v1) as (v' & Hrun & Hp & Hd & Hs & Hsame & Hout & Hlast).
    { eapply Forall_impl; [exact Hall|]. intros b' Hb'. simpl in Hb'.
      apply lookup_lt_is_Some. rewrite Hh1, length_insert. by apply lookup_lt_is_Some. }
    exists v'. split; [done|]. split; [done|].
    split; [rewrite Hd; simpl; lia|]. split; [done|]. split; [|split].
    + intros b' o' Ho'. destruct (decide (b' = b)) as [->|Hne].
      * rewrite Ho0 in Ho'. injection Ho' as <-.
        destruct (Hsame b (setAlive a0 o0)) as [a Ha].
        { rewrite Hh1. by rewrite list_lookup_insert_eq. }
        exists a. by rewrite Ha.
      * apply Hsame. rewrite Hh1. by rewrite list_lookup_insert_ne.
    + intros b' [Hne Hnotin]%not_elem_of_cons.
      rewrite (Hout b' Hnotin), Hh1. by rewrite list_lookup_insert_ne.
    + intros [|k] b' o' Hk Hlater Ho'.
      * injection Hk as Heq. subst b'. rewrite Ho0 in Ho'. injection Ho' as Heq. subst o'.
        assert (b ∉ bs) as Hnotin.
        { intros (k' & Hk')%list_elem_of_lookup_1. by apply (Hlater (S k') ltac:(lia)). }
        unfold liveness. rewrite (Hout b Hnotin), Hh1.
        rewrite list_lookup_insert_eq by done. simpl. by rewrite Nat.add_0_r.
      * simpl in Hk.
        assert (∃ o1, heap v1 !! b' = Some o1 ∧ URL o1 = URL o') as (o1 & Ho1 & Hu1).
        { rewrite Hh1. destruct (decide (b' = b)) as [->|Hne].
          - rewrite list_lookup_insert_eq by done. rewrite Ho0 in Ho'.
            injection Ho' as <-. by eexists.
          - rewrite list_lookup_insert_ne by done. by eexists. }
        assert (∀ k', k < k' → bs !! k' ≠ Some b') as Hlater'
          by (intros k' Hk'; apply (Hlater (S k')); lia).
        rewrite (Hlast k b' o1 Hk Hlater' Ho1).
        rewrite Hu1. simpl. by rewrite Nat.add_succ_r.
Qed.

Lemma checkHealth_range_quiet dial (bs : list ptr) :
  ∀ v, Forall (λ b, is_Some (heap v !! b)) bs →
  (∀ k b o, bs !! k = Some b → heap v !! b = Some o →
     dial (dialed v + k)%nat (dialAddress (URL o)) = Alive o) →
  ∃ added,
    for_range bs (checkHealth_body dial) v
    = Ok (tt, {| heap := heap v; serverPool := serverPool v;
                 trace := trace v ++ added;
                 dialed := (dialed v + length bs)%nat; sent := sent v |}) ∧
    length added = length bs ∧
    Forall (λ e, ∃ addr, e = EvDial addr) added.
Proof.
  induction bs as [|b bs IH]; intros v Hall Hagree.
  - exists []. simpl. unfold ret. rewrite app_nil_r, Nat.add_0_r. by destruct v.
  - apply Forall_cons in Hall as [[o0 Ho0] Hall].
    cbn [for_range]. rewrite (bind_Ok _ _ _ _ _ (checkHealth_body_at dial v b o0 Ho0)).
    pose proof (Hagree 0%nat b o0 eq_refl Ho0) as H0. rewrite Nat.add_0_r in H0.
    rewrite H0, setAlive_id, list_insert_id by done.
    rewrite (proj2 (Bool.eqb_true_iff _ _) eq_refl).
    match goal with |- context [for_range bs _ ?x] => set (v1 := x) end.
    destruct (IH v1) as (added & Hrun & Hlen & Hdial).
    { exact Hall. }
    { intros k b' o' Hk Ho'. simpl. rewrite <- Nat.add_succ_r.
      by apply (Hagree (S k) b' o'). }
    exists (EvDial (dialAddress (URL o0)) :: added).
    split; [|split; [simpl; by rewrite Hlen | constructor; [by eexists | done]]].
    rewrite Hrun. simpl. rewrite <- app_assoc. simpl. do 3 f_equal. lia.
Qed.

(** X16. What a pass leaves behind.  On a pool of valid backends a pass of
    [checkHealth] returns after one dial per pool entry; afterwards the
    liveness of every pooled backend is the result of its probe in this
    pass (its last probe, should the pool hold it more than once), dialed
    at the address derived from its URL.  URLs and proxies are kept,
    backends outside the pool and the pool itself are untouched, and no
    exchange is attempted. *)
Theorem checkHealth_pass_result (dial : nat → string → bool) (w : world) :
  pool_wf w →
  ∃ w', checkHealth dial w = Ok (tt, w') ∧
        serverPool w' = serverPool w ∧
        dialed w' = (dialed w + length (backends (serverPool w)))%nat ∧
        sent w' = sent w ∧
        (∀ (b : ptr) o, heap w !! b = Some o →
           ∃ o', heap w' !! b = Some o' ∧ URL o' = URL o ∧
                 ReverseProxy o' = ReverseProxy o) ∧
        (∀ b, b ∉ backends (serverPool w) → heap w' !! b = heap w !! b) ∧
        (∀ k b o, backends (serverPool w) !! k = Some b →
           (∀ k', k < k' → backends (serverPool w) !! k' ≠ Some b) →
           heap w !! b = Some o →
           liveness w' b = Some (dial (dialed w + k)%nat (dialAddress (URL o)))).
Proof.
  intros [_ Hall].
  destruct (checkHealth_range_result dial (backends (serverPool w)) w Hall)
    as (w' & Hrun & Hp & Hd & Hs & Hsame & Hout & Hlast).
  exists w'. split; [done|]. do 3 (split; [done|]). split; [|done].
  intros b o Ho. destruct (Hsame b o Ho) as [a Ha]. by eexists.
Qed.

(** X17. A pass in steady state is silent.  When every probe of the pass
    finds what the backend's liveness already says, the pass changes no
    backend and emits nothing but its dials: no liveness write and no log
    line. *)
Theorem checkHealth_pass_quiet (dial : nat → string → bool) (w : world) :
  pool_wf w →
  (∀ k b o, backends (serverPool w) !! k = Some b → heap w !! b = Some o →
     dial (dialed w + k)%nat (dialAddress (URL o)) = Alive o) →
  ∃ w' added,
    checkHealth dial w = Ok (tt, w') ∧
    heap w' = heap w ∧ serverPool w' = serverPool w ∧
    trace w' = trace w ++ added ∧
    length added = length (backends (serverPool w)) ∧
    Forall (λ e, ∃ addr, e = EvDial addr) added.
Proof.
  intros [_ Hall] Hagree.
  destruct (checkHealth_range_quiet dial (backends (serverPool w)) w Hall Hagree)
    as (added & Hrun & Hlen & Hdial).
  eexists _, added. split; [exact Hrun|]. done.
Qed.

(** X18. On a network that does not change, one pass is enough.  If the
    outcome of a dial depends on the address only, then after a pass every
    pooled backend's liveness says whether its address is reachable, and a
    second pass right after it is silent: it writes no liveness and logs
    nothing. *)
Theorem checkHealth_converges (reachable : string → bool) (w : world) :
  pool_wf w →
  ∃ w1 w2 added,
    checkHealth (λ _ addr, reachable addr) w = Ok (tt, w1) ∧
    (∀ b o, b ∈ backends (serverPool w) → heap w !! b = Some o →
       liveness w1 b = Some (reachable (dialAddress (URL o)))) ∧
    checkHealth (λ _ addr, reachable addr) w1 = Ok (tt, w2) ∧
    heap w2 = heap w1 ∧
    trace w2 = trace w1 ++ added ∧
    Forall (λ e, ∃ addr, e = EvDial addr) added.
Proof.
  intros Hwf. pose proof Hwf as [Hlen Hall].
  destruct (checkHealth_range_result (λ _ addr, reachable addr)
              (backends (serverPool w)) w Hall)
    as (w1 & Hrun & Hp & Hd & Hs & Hsame & Hout & Hlast).
  assert (∀ b o, b ∈ backends (serverPool w) → heap w !! b = Some o →
            liveness w1 b = Some (reachable (dialAddress (URL o)))) as Hlive.
  { intros b o Hin Ho. destruct (last_occurrence _ _ Hin) as (k & Hk & Hlater).
    by apply (Hlast k b o). }
  assert (Forall (λ b, is_Some (heap w1 !! b)) (backends (serverPool w1))) as Hall1.
  { rewrite Hp. eapply Forall_impl; [exact Hall|]. intros b [o Ho]. simpl.
    destruct (Hsame b o Ho) as [a Ha]. by eexists. }
  destruct (checkHealth_range_quiet (λ _ addr, reachable addr)
              (backends (serverPool w1)) w1 Hall1) as (added & Hrun2 & _ & Hdial).
  { intros k b o1 Hk Ho1. rewrite Hp in Hk.
    pose proof (list_elem_of_lookup_2 _ _ _ Hk) as Hin.
    rewrite Forall_forall in Hall. destruct (Hall b Hin) as [o Ho].
    destruct (Hsame b o Ho) as [a Ha]. rewrite Ho1 in Ha. injection Ha as ->.
    pose proof (Hlive b o Hin Ho) as Hl. unfold liveness in Hl.
    rewrite Ho1 in Hl. simpl in Hl. by injection Hl as ->. }
  eexists w1, _, added. split; [exact Hrun|]. split; [exact Hlive|].
  split; [exact Hrun2|]. done.
Qed.

(** ** Start-up *)

(** X19. The pool after start-up.  When every configured URL parses, the
    start-up loop of [main] returns with one backend per URL, in the order
    of the configuration: entry [i] of the pool is a distinct Backend
    object made from URL [i], alive, whose proxy targets that URL and whose
    transport reports to that very object; the cursor is 0. *)
Theorem main_addBackends_pool (url_Parse : string → url_URL + string)
    (urls : list string) :
  (∀ s, s ∈ urls → ∃ u, url_Parse s = inl u) →
  ∃ w', main_addBackends url_Parse urls world0 = Ok (tt, w') ∧
        backends (serverPool w') = seq 0 (length urls) ∧
        NoDup (backends (serverPool w')) ∧
        current (serverPool w') = 0%Z ∧
        GetPoolSize w' = Ok (Z.of_nat (length urls), w') ∧
        length (heap w') = length urls ∧
        (∀ i s, urls !! i = Some s →
           ∃ u, url_Parse s = inl u ∧ heap w' !! i = Some (newBackend u i)) ∧
        wired w'.
Proof.
  intros Hparse.
  destruct (main_addBackends_layout url_Parse urls Hparse world0)
    as (w' & Hrun & Hbs & Hc & Hlen & _ & Hnew).
  simpl in Hbs, Hlen, Hnew.
  exists w'. split; [done|]. split; [done|]. split; [rewrite Hbs; apply NoDup_seq|].
  split; [done|]. split.
  { unfold GetPoolSize, len_backends. by rewrite Hbs, length_seq. }
  split; [done|]. split; [exact Hnew|].
  intros b o Ho.
  pose proof (lookup_lt_Some _ _ _ Ho) as Hlt. rewrite Hlen in Hlt.
  destruct (lookup_lt_is_Some_2 urls b Hlt) as [s Hs].
  destruct (Hnew b s Hs) as (u & _ & Hobj).
  pose proof (eq_trans (eq_sym Ho) Hobj) as Heq. by injection Heq as ->.
Qed.


(** ** The load test: accounting *)

Lemma int64_small z : (- 2 ^ 63 ≤ z < 2 ^ 63)%Z → int64 z = z.
Proof. intros H. unfold int64. rewrite Z.mod_small; lia. Qed.

Lemma countsTotal_insert m k v :
  m !! k = None → countsTotal (<[k := v]> m) = (v + countsTotal m)%Z.
Proof.
  intros Hk. unfold countsTotal. rewrite map_fold_insert_L; [done| |done].
  intros. lia.
Qed.

Lemma countsTotal_delete m k v :
  m !! k = Some v → countsTotal m = (v + countsTotal (delete k m))%Z.
Proof.
  intros Hk. unfold countsTotal. rewrite (map_fold_delete_L _ _ k v m); [done| |done].
  intros. lia.
Qed.

Lemma recordSuccess_consistent backend c out :
  stats_consistent c → (Z.of_nat (requests c) < 2 ^ 63 - 1)%Z →
  stats_consistent {| stats := recordSuccess backend (stats c); output := out;
                      requests := S (requests c) |}.
Proof.
  intros (Hs & Hf & Hsum & Htot & Hpos) Hbound. unfold stats_consistent, recordSuccess. simpl.
  rewrite (int64_small (successRequests (stats c) + 1)) by lia.
  split; [lia|]. split; [done|]. split; [lia|].
  destruct (backendCounts (stats c) !! backend) as [v|] eqn:Hk.
  - pose proof (Hpos backend v Hk) as Hv.
    rewrite <- (insert_delete_id _ _ _ Hk), alter_insert_eq.
    rewrite (int64_small (v + 1)) by lia. split.
    + rewrite countsTotal_insert by apply lookup_delete_eq.
      rewrite <- Htot, (countsTotal_delete _ backend v Hk). lia.
    + intros k v'. destruct (decide (k = backend)) as [->|Hne].
      * rewrite lookup_insert_eq. intros [= <-]. lia.
      * rewrite lookup_insert_ne, lookup_delete_ne by done. intros Hk'.
        pose proof (Hpos k v' Hk'). lia.
  - rewrite alter_insert_eq. change (int64 (0 + 1)) with 1%Z. split.
    + rewrite countsTotal_insert by done. lia.
    + intros k v'. destruct (decide (k = backend)) as [->|Hne].
      * rewrite lookup_insert_eq. intros [= <-]. lia.
      * rewrite lookup_insert_ne by done. intros Hk'.
        pose proof (Hpos k v' Hk'). lia.
Qed.

Lemma sendRequest_consistent client_Get url i c :
  stats_consistent c → (Z.of_nat (requests c) < 2 ^ 63 - 1)%Z →
  stats_consistent (sendRequest client_Get url i c) ∧
  requests (sendRequest client_Get url i c) = S (requests c) ∧
  totalRequests (stats (sendRequest client_Get url i c)) = totalRequests (stats c) ∧
  pauses (output (sendRequest client_Get url i c)) = pauses (output c).
Proof.
  intros Hinv Hbound. unfold sendRequest.
  destruct (client_Get (requests c) url) as [resp|err].
  - split; [by apply recordSuccess_consistent|]. split; [done|]. split; [done|].
    unfold pauses. simpl. rewrite omap_app. simpl. by rewrite app_nil_r.
  - split.
    + destruct Hinv as (Hs & Hf & Hsum & Htot & Hpos).
      unfold stats_consistent, recordFailure. simpl.
      rewrite (int64_small (failedRequests (stats c) + 1)) by lia.
      split; [done|]. split; [lia|]. split; [lia|]. done.
    + split; [done|]. split; [done|].
      unfold pauses. simpl. rewrite omap_app. simpl. by rewrite app_nil_r.
Qed.

Lemma runSequentialTest_loop_spec client_Get url (n delayMs : Z) :
  (n < 2 ^ 63 - 1)%Z →
  ∀ (fuel : nat) (i : Z) (c : client),
    (1 ≤ i)%Z → (i + Z.of_nat fuel = n + 1)%Z →
    stats_consistent c → Z.of_nat (requests c) = (i - 1)%Z →
    let c' := runSequentialTest_loop client_Get fuel url n delayMs i c in
    stats_consistent c' ∧
    Z.of_nat (requests c') = n ∧
    totalRequests (stats c') = totalRequests (stats c) ∧
    Z.of_nat (pauses (output c'))
    = (Z.of_nat (pauses (output c))
       + if (0 <? delayMs)%Z then Z.max 0 (n - i) else 0)%Z.
Proof.
  intros Hn fuel. induction fuel as [|fuel IH]; intros i c Hi Hfuel Hinv Hreq.
  - simpl. split; [done|]. split; [lia|]. split; [done|].
    destruct (0 <? delayMs)%Z; lia.
  - cbn [runSequentialTest_loop].
    destruct (sendRequest_consistent client_Get url i c Hinv ltac:(lia))
      as (Hinv1 & Hreq1 & Htot1 & Hp1).
    set (c1 := sendRequest client_Get url i c) in *.
    rewrite (int_small (i + 1)) by lia.
    destruct (0 <? delayMs)%Z eqn:Hd; destruct (Z.ltb_spec i n) as [Hlt|Hge]; simpl.
    + set (c2 := {| stats := stats c1; output := output c1 ++ [ClientSleep delayMs];
                    requests := requests c1 |}).
      destruct (IH (i + 1)%Z c2) as (Hinv' & Hreq' & Htot' & Hp'); [lia|lia|done| |].
      { simpl. lia. }
      assert (pauses (output c2) = S (pauses (output c))) as Hp2.
      { unfold pauses in *. simpl. rewrite omap_app, length_app. simpl. lia. }
      split; [done|]. split; [done|]. split; [by rewrite Htot'|].
      rewrite Hp', Hp2. lia.
    + destruct (IH (i + 1)%Z c1) as (Hinv' & Hreq' & Htot' & Hp'); [lia|lia|done|lia|].
      split; [done|]. split; [done|]. split; [by rewrite Htot'|].
      rewrite Hp', Hp1. lia.
    + destruct (IH (i + 1)%Z c1) as (Hinv' & Hreq' & Htot' & Hp'); [lia|lia|done|lia|].
      split; [done|]. split; [done|]. split; [by rewrite Htot'|].
      rewrite Hp', Hp1. lia.
    + destruct (IH (i + 1)%Z c1) as (Hinv' & Hreq' & Htot' & Hp'); [lia|lia|done|lia|].
      split; [done|]. split; [done|]. split; [by rewrite Htot'|].
      rewrite Hp', Hp1. lia.
Qed.

Lemma runSequentialTest_spec client_Get url (n delayMs : Z) :
  (0 ≤ n < 2 ^ 63 - 1)%Z →
  let c := runSequentialTest client_Get url n delayMs in
  stats_consistent c ∧ Z.of_nat (requests c) = n ∧
  totalRequests (stats c) = n ∧
  Z.of_nat (pauses (output c)) = if (0 <? delayMs)%Z then Z.max 0 (n - 1) else 0%Z.
Proof.
  intros Hn. unfold runSequentialTest.
  destruct (runSequentialTest_loop_spec client_Get url n delayMs ltac:(lia)
              (Z.to_nat n) 1%Z
              {| stats := {| totalRequests := int64 n; successRequests := 0;
                             failedRequests := 0; backendCounts := ∅ |};
                 output := []; requests := 0 |})
    as (Hinv & Hreq & Htot & Hp); [lia|lia| |done|].
  { unfold stats_consistent. simpl. do 3 (split; [done|]). split; [done|].
    intros k v Hk. by rewrite lookup_empty in Hk. }
  split; [done|]. split; [done|]. split.
  - rewrite Htot. simpl. apply int64_small. lia.
  - rewrite Hp. simpl. done.
Qed.

(** X21. Accounting of the sequential load test.  A run of [n] requests
    sends exactly [n] requests, and every one of them is counted once,
    as a success or as a failure: successes and failures are non-negative
    and add up to [n], which is also the recorded total. *)
Theorem runSequentialTest_accounting (client_Get : nat → string → Response + string)
    (url : string) (n delayMs : Z) :
  (0 ≤ n < 2 ^ 63 - 1)%Z →
  let c := runSequentialTest client_Get url n delayMs in
  requests c = Z.to_nat n ∧
  totalRequests (stats c) = n ∧
  (successRequests (stats c) + failedRequests (stats c) = n)%Z ∧
  (0 ≤ successRequests (stats c))%Z ∧ (0 ≤ failedRequests (stats c))%Z.
Proof.
  intros Hn c.
  destruct (runSequentialTest_spec client_Get url n delayMs Hn)
    as ((Hs & Hf & Hsum & _) & Hreq & Htot & _).
  fold c in Hs, Hf, Hsum, Hreq, Htot.
  split; [lia|]. split; [done|]. split; [lia|]. done.
Qed.

(** X22. The backend distribution of the load test.  After a run the
    per-backend counters add up to the number of successful requests, and
    every backend listed has a counter of at least one and at most the
    number of successes. *)
Theorem runSequentialTest_distribution (client_Get : nat → string → Response + string)
    (url : string) (n delayMs : Z) :
  (0 ≤ n < 2 ^ 63 - 1)%Z →
  let c := runSequentialTest client_Get url n delayMs in
  countsTotal (backendCounts (stats c)) = successRequests (stats c) ∧
  ∀ backend count, backendCounts (stats c) !! backend = Some count →
    (1 ≤ count ≤ successRequests (stats c))%Z.
Proof.
  intros Hn c.
  destruct (runSequentialTest_spec client_Get url n delayMs Hn)
    as ((_ & _ & _ & Htot & Hpos) & _).
  fold c in Htot, Hpos. split; [done|].
  intros backend count Hk. pose proof (Hpos backend count Hk). lia.
Qed.


(** ** The further properties at the configured pool *)

(** X1 at the configured pool: the first call returns backend 1. *)
Lemma GetNextPeer_first_alive_witness :
  pool_wf (started backendURLs) ∧ (0 < poolLen (started backendURLs))%Z ∧
  GetNextPeer (started backendURLs) = Ok (Some 1%nat, pinned 1 (started backendURLs)) ∧
  liveness (started backendURLs) 1 = Some true.
Proof.
  assert (pool_wf (started backendURLs)) as Hwf by pool_wf_by_computation.
  assert (0 < poolLen (started backendURLs))%Z as HN by (vm_compute; reflexivity).
  assert (GetNextPeer (started backendURLs)
          = Ok (Some 1%nat, pinned 1 (started backendURLs))) as Hrun by reflexivity.
  split; [exact Hwf|]. split; [exact HN|]. split; [exact Hrun|].
  destruct (GetNextPeer_first_alive _ _ _ Hwf HN Hrun) as (j & _ & _ & _ & Hl & _).
  exact Hl.
Defined.

(** X2 at the configured pool with the cursor on backend 1. *)
Lemma GetNextPeer_no_immediate_repeat_witness :
  pool_wf (pinned 1 (started backendURLs)) ∧
  ∃ b' w', GetNextPeer (pinned 1 (started backendURLs)) = Ok (Some b', w') ∧
           current (serverPool w') ≠ 1%Z.
Proof.
  assert (pool_wf (pinned 1 (started backendURLs))) as Hwf by pool_wf_by_computation.
  split; [exact Hwf|].
  destruct (GetNextPeer_no_immediate_repeat (pinned 1 (started backendURLs)) 0 0 Hwf)
    as (b' & w' & Hrun & Hne & _).
  - vm_compute. split; [discriminate | reflexivity].
  - reflexivity.
  - reflexivity.
  - vm_compute. discriminate.
  - exists b', w'. split; [exact Hrun | exact Hne].
Defined.

(** X3 at the configured pool. *)
Lemma NextIndex_in_range_witness :
  (0 < poolLen (started backendURLs) ≤ 2 ^ 61)%Z ∧
  ∃ idx w', NextIndex (started backendURLs) = Ok (idx, w') ∧
            (0 ≤ idx < poolLen (started backendURLs))%Z.
Proof.
  assert (0 < poolLen (started backendURLs) ≤ 2 ^ 61)%Z as HN
    by (vm_compute; split; [reflexivity | discriminate]).
  split; [exact HN|].
  destruct (NextIndex_in_range (started backendURLs) HN) as (idx & w' & Hrun & Hidx & _).
  exists idx, w'. split; [exact Hrun | exact Hidx].
Defined.

(** X4 at backend 0 of the configured pool. *)
Lemma SetAlive_IsAlive_witness :
  heap (started backendURLs) !! 0%nat = Some (newBackend (sampleURL "8081") 0) ∧
  ∃ w', SetAlive 0 false (started backendURLs) = Ok (tt, w') ∧
        IsAlive 0 w' = Ok (false, w').
Proof.
  split; [reflexivity|].
  destruct (SetAlive_IsAlive (started backendURLs) 0 (newBackend (sampleURL "8081") 0) false)
    as (w' & Hset & Hget & _); [reflexivity|].
  exists w'. split; [exact Hset | exact Hget].
Defined.

(** X5 at the configured pool and the URL of backend 1. *)
Lemma MarkBackendStatus_first_only_witness :
  pool_wf (started backendURLs) ∧
  first_match (started backendURLs) (sampleURL "8082") 1 (newBackend (sampleURL "8082") 1) ∧
  ∃ w', MarkBackendStatus (sampleURL "8082") false (started backendURLs) = Ok (tt, w') ∧
        liveness w' 1 = Some false.
Proof.
  assert (pool_wf (started backendURLs)) as Hwf by pool_wf_by_computation.
  assert (first_match (started backendURLs) (sampleURL "8082") 1
            (newBackend (sampleURL "8082") 1)) as Hfirst.
  { exists [0%nat], [2%nat]. split; [reflexivity|]. split; [|split; reflexivity].
    repeat constructor. eexists. split; [reflexivity|]. vm_compute. discriminate. }
  split; [exact Hwf|]. split; [exact Hfirst|].
  destruct (MarkBackendStatus_first_only (started backendURLs) (sampleURL "8082") false Hwf)
    as [Hmark _].
  destruct (Hmark 1%nat _ Hfirst) as (w' & Hrun & _ & Hl & _).
  exists w'. split; [exact Hrun | exact Hl].
Defined.

(** X6 at the configured pool and the URL of backend 1. *)
Lemma MarkBackendStatus_down_up_witness :
  pool_wf (started backendURLs) ∧
  first_match (started backendURLs) (sampleURL "8082") 1 (newBackend (sampleURL "8082") 1) ∧
  ∃ w1 w2, MarkBackendStatus (sampleURL "8082") false (started backendURLs) = Ok (tt, w1) ∧
           MarkBackendStatus (sampleURL "8082") true w1 = Ok (tt, w2) ∧
           heap w2 = heap (started backendURLs).
Proof.
  assert (pool_wf (started backendURLs)) as Hwf by pool_wf_by_computation.
  assert (first_match (started backendURLs) (sampleURL "8082") 1
            (newBackend (sampleURL "8082") 1)) as Hfirst.
  { exists [0%nat], [2%nat]. split; [reflexivity|]. split; [|split; reflexivity].
    repeat constructor. eexists. split; [reflexivity|]. vm_compute. discriminate. }
  split; [exact Hwf|]. split; [exact Hfirst|].
  destruct (MarkBackendStatus_down_up (started backendURLs) (sampleURL "8082") 1 _ Hwf Hfirst)
    as (w1 & w2 & Hdown & _ & _ & Hup & _ & Hback & _).
  exists w1, w2. split; [exact Hdown|]. split; [exact Hup|]. apply Hback. reflexivity.
Defined.

(** X7 at the configured pool: three of three alive. *)
Lemma GetPoolStatus_counts_witness :
  pool_wf (started backendURLs) ∧
  GetPoolStatus (started backendURLs) = Ok ((3%Z, 3%Z), started backendURLs).
Proof.
  assert (pool_wf (started backendURLs)) as Hwf by pool_wf_by_computation.
  split; [exact Hwf|].
  exact (proj1 (GetPoolStatus_counts (started backendURLs) Hwf)).
Defined.

(** X8 at the configured pool with every backend DOWN. *)
Lemma GetPoolStatus_zero_iff_no_peer_witness :
  pool_wf (all_down (started backendURLs)) ∧
  ∃ w', GetPoolStatus (all_down (started backendURLs))
        = Ok ((0%Z, 3%Z), all_down (started backendURLs)) ∧
        GetNextPeer (all_down (started backendURLs)) = Ok (None, w').
Proof.
  assert (pool_wf (all_down (started backendURLs))) as Hwf by pool_wf_by_computation.
  split; [exact Hwf|].
  destruct (GetPoolStatus_zero_iff_no_peer (all_down (started backendURLs)) Hwf)
    as (alive & total & r & w' & Hstat & Hnext & Hzero & _).
  pose proof (f_equal (λ x, match x with
                            | Ok (counts, _) => Some counts
                            | Abort _ => None
                            end) Hstat) as Heq.
  vm_compute in Heq. injection Heq as <- <-.
  exists w'. split; [exact Hstat|].
  rewrite Hnext. by rewrite (proj1 Hzero eq_refl).
Defined.

(** X9 at backend 0 of the configured pool when the exchange is refused. *)
Lemma RoundTrip_transport_error_witness :
  heap (started backendURLs) !! 0%nat = Some (newBackend (sampleURL "8081") 0) ∧
  fail_then_succeed (sent (started backendURLs)) (sampleURL "8081") sampleRequest
  = inr "connection refused" ∧
  ∃ w', RoundTrip fail_then_succeed {| backend := 0 |} (sampleURL "8081", sampleRequest)
          (started backendURLs) = Ok (inr "connection refused", w') ∧
        liveness w' 0 = Some false.
Proof.
  split; [reflexivity|]. split; [reflexivity|].
  destruct (RoundTrip_transport_error fail_then_succeed {| backend := 0 |}
              (sampleURL "8081", sampleRequest) (started backendURLs)
              (newBackend (sampleURL "8081") 0) "connection refused")
    as (w' & Hrun & Hl & _); [reflexivity|reflexivity|].
  exists w'. split; [exact Hrun | exact Hl].
Defined.

(** X10 at the configured pool when the exchange is answered with 200. *)
Lemma RoundTrip_below_500_witness :
  (StatusCode (sampleResponse 200) < 500)%Z ∧
  ∃ w', RoundTrip (λ _ _ _, inl (sampleResponse 200)) {| backend := 0 |}
          (sampleURL "8081", sampleRequest) (started backendURLs)
        = Ok (inl (sampleResponse 200), w') ∧
        heap w' = heap (started backendURLs).
Proof.
  assert (StatusCode (sampleResponse 200) < 500)%Z as Hlt by (vm_compute; reflexivity).
  split; [exact Hlt|].
  destruct (RoundTrip_below_500 (λ _ _ _, inl (sampleResponse 200)) {| backend := 0 |}
              (sampleURL "8081", sampleRequest) (started backendURLs)
              (sampleResponse 200) eq_refl Hlt)
    as (w' & Hrun & Hh & _).
  exists w'. split; [exact Hrun | exact Hh].
Defined.

(** X11 at backend 0 of the configured pool. *)
Lemma RoundTrip_never_revives_witness :
  heap (started backendURLs) !! 0%nat = Some (newBackend (sampleURL "8081") 0) ∧
  ∃ w', RoundTrip fail_then_succeed {| backend := 0 |} (sampleURL "8081", sampleRequest)
          (started backendURLs) = Ok (inr "connection refused", w') ∧
        sent w' = 1%nat.
Proof.
  split; [reflexivity|].
  destruct (RoundTrip_never_revives fail_then_succeed {| backend := 0 |}
              (sampleURL "8081", sampleRequest) (started backendURLs)
              (newBackend (sampleURL "8081") 0))
    as (w' & Hrun & Hs & _); [reflexivity|].
  exists w'. split; [exact Hrun | exact Hs].
Defined.



(** X14 at the configured pool when the first exchange is refused. *)
Lemma handler_failure_next_selection_witness :
  pool_wf (started backendURLs) ∧
  ∃ rw' w', handler fail_then_succeed no_connection_names newResponseWriter sampleRequest
              (started backendURLs) = Ok (rw', w') ∧
            liveness w' 1 = Some false.
Proof.
  assert (pool_wf (started backendURLs)) as Hwf by pool_wf_by_computation.
  split; [exact Hwf|].
  destruct (handler_failure_next_selection fail_then_succeed no_connection_names
              newResponseWriter sampleRequest
              (started backendURLs) 1%nat (pinned 1 (started backendURLs))
              (newBackend (sampleURL "8082") 1) Hwf)
    as (rw' & w' & Hrun & Hl & _).
  - reflexivity.
  - reflexivity.
  - reflexivity.
  - exact I.
  - exists rw', w'. split; [exact Hrun | exact Hl].
Defined.


(** X16 at the configured pool when no backend can be reached. *)
Lemma checkHealth_pass_result_witness :
  pool_wf (started backendURLs) ∧
  ∃ w', checkHealth (λ _ _, false) (started backendURLs) = Ok (tt, w') ∧
        liveness w' 2 = Some false.
Proof.
  assert (pool_wf (started backendURLs)) as Hwf by pool_wf_by_computation.
  split; [exact Hwf|].
  destruct (checkHealth_pass_result (λ _ _, false) (started backendURLs) Hwf)
    as (w' & Hrun & _ & _ & _ & _ & _ & Hlast).
  exists w'. split; [exact Hrun|].
  apply (Hlast 2%nat 2%nat (newBackend (sampleURL "8083") 2)).
  - reflexivity.
  - intros [|[|[|k']]] Hk'; try lia; vm_compute; discriminate.
  - reflexivity.
Defined.

(** X17 at the configured pool when every backend can be reached. *)
Lemma checkHealth_pass_quiet_witness :
  pool_wf (started backendURLs) ∧
  ∃ w', checkHealth (λ _ _, true) (started backendURLs) = Ok (tt, w') ∧
        heap w' = heap (started backendURLs).
Proof.
  assert (pool_wf (started backendURLs)) as Hwf by pool_wf_by_computation.
  split; [exact Hwf|].
  destruct (checkHealth_pass_quiet (λ _ _, true) (started backendURLs) Hwf)
    as (w' & added & Hrun & Hh & _).
  - intros k b o Hk Ho.
    do 3 (destruct k as [|k];
          [vm_compute in Hk; injection Hk as <-; vm_compute in Ho;
           injection Ho as <-; reflexivity|]).
    vm_compute in Hk. discriminate Hk.
  - exists w'. split; [exact Hrun | exact Hh].
Defined.

(** X18 at the configured pool when only port 8081 can be reached. *)
Lemma checkHealth_converges_witness :
  pool_wf (started backendURLs) ∧
  ∃ w1 w2, checkHealth (λ _ addr, String.eqb addr "localhost:8081")
             (started backendURLs) = Ok (tt, w1) ∧
           checkHealth (λ _ addr, String.eqb addr "localhost:8081") w1 = Ok (tt, w2) ∧
           heap w2 = heap w1.
Proof.
  assert (pool_wf (started backendURLs)) as Hwf by pool_wf_by_computation.
  split; [exact Hwf|].
  destruct (checkHealth_converges (λ addr, String.eqb addr "localhost:8081")
              (started backendURLs) Hwf)
    as (w1 & w2 & added & Hrun1 & _ & Hrun2 & Hh & _).
  exists w1, w2. split; [exact Hrun1|]. split; [exact Hrun2 | exact Hh].
Defined.

(** X19 at the configured URLs. *)
Lemma main_addBackends_pool_witness :
  (∀ s, s ∈ backendURLs → ∃ u, sample_Parse s = inl u) ∧
  ∃ w', main_addBackends sample_Parse backendURLs world0 = Ok (tt, w') ∧
        backends (serverPool w') = [0; 1; 2]%nat ∧ wired w'.
Proof.
  assert (∀ s, s ∈ backendURLs → ∃ u, sample_Parse s = inl u) as Hparse.
  { intros s Hs. apply list_elem_of_In in Hs. simpl in Hs.
    destruct Hs as [<-|[<-|[<-|[]]]]; eexists; reflexivity. }
  split; [exact Hparse|].
  destruct (main_addBackends_pool sample_Parse backendURLs Hparse)
    as (w' & Hrun & Hbs & _ & _ & _ & _ & _ & Hwired).
  exists w'. split; [exact Hrun|]. split; [exact Hbs | exact Hwired].
Defined.


(** X21 at a run of three requests, the first of which times out. *)
Lemma runSequentialTest_accounting_witness :
  (0 ≤ 3 < 2 ^ 63 - 1)%Z ∧
  successRequests (stats (runSequentialTest sample_Get "http://localhost:8000" 3 100)) = 2%Z ∧
  failedRequests (stats (runSequentialTest sample_Get "http://localhost:8000" 3 100)) = 1%Z ∧
  (successRequests (stats (runSequentialTest sample_Get "http://localhost:8000" 3 100))
   + failedRequests (stats (runSequentialTest sample_Get "http://localhost:8000" 3 100))
   = 3)%Z.
Proof.
  assert (0 ≤ 3 < 2 ^ 63 - 1)%Z as Hn by (vm_compute; split; [discriminate | reflexivity]).
  split; [exact Hn|]. split; [reflexivity|]. split; [reflexivity|].
  exact (proj1 (proj2 (proj2
           (runSequentialTest_accounting sample_Get "http://localhost:8000" 3 100 Hn)))).
Defined.

(** X22 at the same run. *)
Lemma runSequentialTest_distribution_witness :
  (0 ≤ 3 < 2 ^ 63 - 1)%Z ∧
  countsTotal (backendCounts
                 (stats (runSequentialTest sample_Get "http://localhost:8000" 3 100)))
  = successRequests (stats (runSequentialTest sample_Get "http://localhost:8000" 3 100)).
Proof.
  assert (0 ≤ 3 < 2 ^ 63 - 1)%Z as Hn by (vm_compute; split; [discriminate | reflexivity]).
  split; [exact Hn|].
  exact (proj1 (runSequentialTest_distribution sample_Get "http://localhost:8000" 3 100 Hn)).
Defined.

